(** * goose/http: the JSON / binary request pipeline

    A shallow embedding of the HTTP client of goose (package [http]:
    [Client], [RequestData], [JsonRequest], [BinaryRequest] and
    [sendRequest]) together with the parts of the Go libraries the client
    calls ([encoding/json], [net/http], [io/ioutil]), and the properties of
    the pipeline stated over it.

    Conventions.
    - A Go [string] and a Go [[]byte] are both byte sequences; they are
      modelled as [string] (a list of 8-bit [ascii]).  A nil slice and an
      empty slice are both the empty string: the client only ever takes
      their [len].
    - A Go [int] is modelled as [Z]; the client compares status codes for
      equality only.  Where [encoding/json] range-checks a decoded integer
      the 64-bit bounds are written out.
    - A nilable reference (interface value, pointer, map) is an [option].
    - Effects (the transport round trip, the print to standard output) are
      threaded through a small state monad over a trace of events. *)

From Stdlib Require Import ZArith Ascii String DecimalString DecimalZ.
From stdpp Require Import gmap strings list fin_maps.

Set Default Proof Using "Type".
Set Warnings "-register-all".
Local Open Scope Z_scope.
Local Open Scope string_scope.
Local Open Scope list_scope.

(** ** Bytes *)

Definition byte_val (c : ascii) : N := N_of_ascii c.
Definition byte_of (n : N) : ascii := ascii_of_N n.

Definition in_range (lo hi : N) (c : ascii) : bool :=
  ((lo <=? byte_val c) && (byte_val c <=? hi))%N.

Definition is_digit (c : ascii) : bool := in_range 48 57 c.
Definition is_lower (c : ascii) : bool := in_range 97 122 c.
Definition is_upper (c : ascii) : bool := in_range 65 90 c.

Definition to_upper (c : ascii) : ascii :=
  if is_lower c then byte_of (byte_val c - 32) else c.
Definition to_lower (c : ascii) : ascii :=
  if is_upper c then byte_of (byte_val c + 32) else c.

Definition quote : ascii := "034"%char.
Definition backslash : ascii := "092"%char.

(** [q s] is [s] between double quotes, for writing JSON texts. *)
Definition q (s : string) : string := String quote s +:+ String quote "".

Fixpoint string_forallb (p : ascii → bool) (s : string) : bool :=
  match s with
  | EmptyString => true
  | String c r => p c && string_forallb p r
  end.

Fixpoint string_existsb (p : ascii → bool) (s : string) : bool :=
  match s with
  | EmptyString => false
  | String c r => p c || string_existsb p r
  end.

(** [len(s) > 0] on a byte sequence. *)
Definition nonempty (s : string) : bool :=
  match s with EmptyString => false | String _ _ => true end.

(** ** Errors

    The errors of the pipeline.  [LibError] stands for an error value
    produced by a Go library ([encoding/json], [net/http], [net/url], the
    transport, a body reader); [UnexpectedStatus] is the error
    [sendRequest] builds with [errors.New(fmt.Sprintf(...))] from the
    request URL, the response status line, the error detail and the
    payload, kept here as its four arguments rather than as the rendered
    text. *)

Record ErrorResponse := mkErrorResponse {
  Message : string;
  Code : Z;
  Title : string;
}.

Record ErrorWrapper := mkErrorWrapper { Error : ErrorResponse }.

(** [errInfo interface{}]: the raw bytes read from the body, or the
    decoded [ErrorResponse]. *)
Inductive ErrInfo :=
  | RawBody (body : string)
  | Structured (e : ErrorResponse).

Inductive error :=
  | LibError (pkg msg : string)
  | WithContext (context : string) (cause : error)
  | UnexpectedStatus (url status : string) (errInfo : ErrInfo) (payloadInfo : string).

(** Modelled from the spec: [gooseerrors.AddContext] (package
    [launchpad.net/goose/errors], not among the sources).  "Every internal
    failure is wrapped with a short human-readable context string ... the
    underlying cause remains inspectable by the caller (no information is
    discarded, only annotated)." *)
Definition AddContext (err : error) (context : string) : error :=
  WithContext context err.

Global Instance ErrorResponse_eq_dec : EqDecision ErrorResponse.
Proof. solve_decision. Defined.
Global Instance ErrInfo_eq_dec : EqDecision ErrInfo.
Proof. solve_decision. Defined.
Global Instance error_eq_dec : EqDecision error.
Proof. solve_decision. Defined.

(** ** encoding/json, as far as the client uses it

    [json.Unmarshal] first checks that the whole input is one valid JSON
    text and only then decodes it.  The model splits the input into tokens
    with a one-pass scanner, builds the value with a stack machine over the
    tokens (both are structural recursions: no fuel), and decodes the
    value into an [ErrorWrapper] the way the reflection-driven decoder does
    for that struct type. *)

Module json.

Inductive value :=
  | Null
  | Bool (b : bool)
  | Number (literal : string)
  | Str (s : string)
  | Array (elems : list value)
  | Object (members : list (string * value)).

Inductive token :=
  | TLBrace | TRBrace | TLBrack | TRBrack | TColon | TComma
  | TStr (s : string)
  | TWord (w : string).

(** *** UTF-8

    The decoder turns every byte that does not start a well-formed UTF-8
    sequence into U+FFFD and moves on by one byte. *)

Definition replacement : string :=
  String (byte_of 239) (String (byte_of 191) (String (byte_of 189) "")).

Definition cont (c : ascii) : bool := in_range 128 191 c.

Fixpoint sanitize (s : string) : string :=
  match s with
  | EmptyString => EmptyString
  | String a r =>
    if (byte_val a <? 128)%N then String a (sanitize r)
    else
      match r with
      | String b r1 =>
        if in_range 194 223 a && cont b then String a (String b (sanitize r1))
        else
          match r1 with
          | String c r2 =>
            if (in_range 224 224 a && in_range 160 191 b
                || in_range 225 236 a && cont b
                || in_range 237 237 a && in_range 128 159 b
                || in_range 238 239 a && cont b) && cont c
            then String a (String b (String c (sanitize r2)))
            else
              match r2 with
              | String d r3 =>
                if (in_range 240 240 a && in_range 144 191 b
                    || in_range 241 243 a && cont b
                    || in_range 244 244 a && in_range 128 143 b)
                   && cont c && cont d
                then String a (String b (String c (String d (sanitize r3))))
                else replacement +:+ sanitize r
              | EmptyString => replacement +:+ sanitize r
              end
          | EmptyString => replacement +:+ sanitize r
          end
      | EmptyString => replacement
      end
  end.

(** [utf8.EncodeRune] for a code point below 0x110000 that is not a
    surrogate. *)
Definition encode_rune (r : N) : string :=
  (if r <? 128 then String (byte_of r) ""
   else if r <? 2048 then
     String (byte_of (192 + r / 64)) (String (byte_of (128 + r mod 64)) "")
   else if r <? 65536 then
     String (byte_of (224 + r / 4096))
       (String (byte_of (128 + (r / 64) mod 64))
          (String (byte_of (128 + r mod 64)) ""))
   else
     String (byte_of (240 + r / 262144))
       (String (byte_of (128 + (r / 4096) mod 64))
          (String (byte_of (128 + (r / 64) mod 64))
             (String (byte_of (128 + r mod 64)) ""))))%N.

Definition hex_digit (c : ascii) : option N :=
  if is_digit c then Some (byte_val c - 48)%N
  else if in_range 97 102 c then Some (byte_val c - 87)%N
  else if in_range 65 70 c then Some (byte_val c - 55)%N
  else None.

(** [getu4]: the value of four hexadecimal digits. *)
Definition hex4 (a b c d : ascii) : option N :=
  match hex_digit a, hex_digit b, hex_digit c, hex_digit d with
  | Some x, Some y, Some z, Some w => Some (((x * 16 + y) * 16 + z) * 16 + w)%N
  | _, _, _, _ => None
  end.

Definition is_surrogate (r : N) : bool := ((55296 <=? r) && (r <? 57344))%N.

(** [utf16.DecodeRune]: a high surrogate followed by a low one. *)
Definition decode_pair (r1 r2 : N) : option N :=
  (if (55296 <=? r1) && (r1 <? 56320) && (56320 <=? r2) && (r2 <? 57344)
   then Some ((r1 - 55296) * 1024 + (r2 - 56320) + 65536)
   else None)%N.

Definition simple_escape (c : ascii) : option ascii :=
  if decide (c = quote) then Some quote
  else if decide (c = backslash) then Some backslash
  else if decide (c = "/"%char) then Some "/"%char
  else if decide (c = "b"%char) then Some "008"%char
  else if decide (c = "f"%char) then Some "012"%char
  else if decide (c = "n"%char) then Some "010"%char
  else if decide (c = "r"%char) then Some "013"%char
  else if decide (c = "t"%char) then Some "009"%char
  else None.

(** [unescape s]: the bytes of a string literal whose text between the
    quotes is [s]; [None] when [s] holds a control character or a
    malformed escape (a syntax error of the scanner). *)
Fixpoint unescape (s : string) : option string :=
  match s with
  | EmptyString => Some EmptyString
  | String c r =>
    if (byte_val c <? 32)%N then None
    else if decide (c = backslash) then
      match r with
      | String e r1 =>
        if decide (e = "u"%char) then
          match r1 with
          | String h1 (String h2 (String h3 (String h4 r2))) =>
            match hex4 h1 h2 h3 h4 with
            | None => None
            | Some rr =>
              if is_surrogate rr then
                match r2 with
                | String b (String u (String k1 (String k2 (String k3 (String k4 r3))))) =>
                  match
                    (if decide (b = backslash ∧ u = "u"%char)
                     then hex4 k1 k2 k3 k4 ≫= decode_pair rr else None)
                  with
                  | Some dec => String.append (encode_rune dec) <$> unescape r3
                  | None => String.append replacement <$> unescape r2
                  end
                | _ => String.append replacement <$> unescape r2
                end
              else String.append (encode_rune rr) <$> unescape r2
            end
          | _ => None
          end
        else
          match simple_escape e with
          | Some x => String x <$> unescape r1
          | None => None
          end
      | EmptyString => None
      end
    else String c <$> unescape r
  end.

Definition unquote (s : string) : option string := sanitize <$> unescape s.

(** *** The scanner *)

Definition rev_string (acc : list ascii) : string :=
  fold_left (λ s c, String c s) acc EmptyString.

Definition is_space (c : ascii) : bool :=
  bool_decide (c = " "%char) || bool_decide (c = "009"%char)
  || bool_decide (c = "010"%char) || bool_decide (c = "013"%char).

(** The bytes a number literal or one of [true], [false], [null] is made
    of. *)
Definition word_char (c : ascii) : bool :=
  is_digit c || is_lower c || bool_decide (c = "+"%char)
  || bool_decide (c = "-"%char) || bool_decide (c = "."%char)
  || bool_decide (c = "E"%char).

Inductive scan_state :=
  | SStart
  | SStr (acc : list ascii)
  | SEsc (acc : list ascii)
  | SWord (acc : list ascii).

Definition start (c : ascii) : option (list token * scan_state) :=
  if is_space c then Some ([], SStart)
  else if decide (c = "{"%char) then Some ([TLBrace], SStart)
  else if decide (c = "}"%char) then Some ([TRBrace], SStart)
  else if decide (c = "["%char) then Some ([TLBrack], SStart)
  else if decide (c = "]"%char) then Some ([TRBrack], SStart)
  else if decide (c = ":"%char) then Some ([TColon], SStart)
  else if decide (c = ","%char) then Some ([TComma], SStart)
  else if decide (c = quote) then Some ([], SStr [])
  else if word_char c then Some ([], SWord [c])
  else None.

Definition step (st : scan_state) (c : ascii) : option (list token * scan_state) :=
  match st with
  | SStart => start c
  | SStr acc =>
    if decide (c = quote) then
      s ← unquote (rev_string acc); Some ([TStr s], SStart)
    else if decide (c = backslash) then Some ([], SEsc (c :: acc))
    else Some ([], SStr (c :: acc))
  | SEsc acc => Some ([], SStr (c :: acc))
  | SWord acc =>
    if word_char c then Some ([], SWord (c :: acc))
    else '(ts, st') ← start c; Some (TWord (rev_string acc) :: ts, st')
  end.

Fixpoint scan (st : scan_state) (s : string) : option (list token) :=
  match s with
  | EmptyString =>
    match st with
    | SStart => Some []
    | SWord acc => Some [TWord (rev_string acc)]
    | SStr _ | SEsc _ => None
    end
  | String c r =>
    '(ts, st') ← step st c; (ts ++.) <$> scan st' r
  end.

(** *** Number literals *)

Inductive num_state :=
  | NStart | NNeg | NZero | NInt | NDot | NFrac | NExp0 | NExpSign | NExp.

Definition num_step (st : num_state) (c : ascii) : option num_state :=
  let e := bool_decide (c = "e"%char) || bool_decide (c = "E"%char) in
  let dot := bool_decide (c = "."%char) in
  match st with
  | NStart =>
    if bool_decide (c = "-"%char) then Some NNeg
    else if bool_decide (c = "0"%char) then Some NZero
    else if is_digit c then Some NInt else None
  | NNeg =>
    if bool_decide (c = "0"%char) then Some NZero
    else if is_digit c then Some NInt else None
  | NZero => if dot then Some NDot else if e then Some NExp0 else None
  | NInt =>
    if is_digit c then Some NInt
    else if dot then Some NDot else if e then Some NExp0 else None
  | NDot => if is_digit c then Some NFrac else None
  | NFrac => if is_digit c then Some NFrac else if e then Some NExp0 else None
  | NExp0 =>
    if bool_decide (c = "+"%char) || bool_decide (c = "-"%char) then Some NExpSign
    else if is_digit c then Some NExp else None
  | NExpSign => if is_digit c then Some NExp else None
  | NExp => if is_digit c then Some NExp else None
  end.

Fixpoint num_run (st : num_state) (s : string) : option num_state :=
  match s with
  | EmptyString => Some st
  | String c r => st' ← num_step st c; num_run st' r
  end.

Definition valid_number (s : string) : bool :=
  match num_run NStart s with
  | Some (NZero | NInt | NFrac | NExp) => true
  | _ => false
  end.

Definition word_value (w : string) : option value :=
  if decide (w = "true") then Some (Bool true)
  else if decide (w = "false") then Some (Bool false)
  else if decide (w = "null") then Some Null
  else if valid_number w then Some (Number w)
  else None.

(** *** The parser: a stack machine over the tokens *)

Inductive frame :=
  | FArr (acc : list value)
  | FObj (acc : list (string * value)) (key : option string).

Inductive expect :=
  | EValue            (* a value *)
  | EValueOrClose     (* just after an opening bracket *)
  | EKeyOrClose       (* just after an opening brace *)
  | EKey              (* after a comma inside an object *)
  | EColon
  | ECommaOrClose
  | EEnd (v : value).

(** A value is complete: hand it to the enclosing container. *)
Definition complete (v : value) (stack : list frame) : option (expect * list frame) :=
  match stack with
  | [] => Some (EEnd v, [])
  | FArr acc :: st => Some (ECommaOrClose, FArr (v :: acc) :: st)
  | FObj acc (Some k) :: st => Some (ECommaOrClose, FObj ((k, v) :: acc) None :: st)
  | FObj _ None :: _ => None
  end.

(** The scanner refuses arrays and objects nested deeper than this. *)
Definition maxNestingDepth : N := 10000.

Definition may_nest (stack : list frame) : bool :=
  (N.of_nat (length stack) <? maxNestingDepth)%N.

Definition begin_value (t : token) (stack : list frame) : option (expect * list frame) :=
  match t with
  | TLBrack => if may_nest stack then Some (EValueOrClose, FArr [] :: stack) else None
  | TLBrace => if may_nest stack then Some (EKeyOrClose, FObj [] None :: stack) else None
  | TStr s => complete (Str s) stack
  | TWord w => v ← word_value w; complete v stack
  | _ => None
  end.

Definition parse_step (e : expect) (stack : list frame) (t : token)
  : option (expect * list frame) :=
  match e, t, stack with
  | EValue, _, _ => begin_value t stack
  | EValueOrClose, TRBrack, FArr acc :: st => complete (Array (reverse acc)) st
  | EValueOrClose, _, _ => begin_value t stack
  | EKeyOrClose, TRBrace, FObj acc None :: st => complete (Object (reverse acc)) st
  | (EKeyOrClose | EKey), TStr k, FObj acc None :: st => Some (EColon, FObj acc (Some k) :: st)
  | EColon, TColon, _ => Some (EValue, stack)
  | ECommaOrClose, TComma, FArr _ :: _ => Some (EValue, stack)
  | ECommaOrClose, TComma, FObj _ None :: _ => Some (EKey, stack)
  | ECommaOrClose, TRBrack, FArr acc :: st => complete (Array (reverse acc)) st
  | ECommaOrClose, TRBrace, FObj acc None :: st => complete (Object (reverse acc)) st
  | _, _, _ => None
  end.

Fixpoint parse_tokens (e : expect) (stack : list frame) (ts : list token) : option value :=
  match ts with
  | [] => match e with EEnd v => Some v | _ => None end
  | t :: ts' => '(e', stack') ← parse_step e stack t; parse_tokens e' stack' ts'
  end.

(** [parse data]: the JSON value [data] denotes, [None] on a syntax
    error. *)
Definition parse (data : string) : option value :=
  ts ← scan SStart data; parse_tokens EValue [] ts.

(** *** Decoding into the error envelope

    How the decoder fills a struct: an object member is matched to a field
    by its [json] tag, exactly or under case folding (ASCII letters, and
    the two non-ASCII runes that fold to an ASCII letter, U+017F and
    U+212A); members that match no field are skipped; [null] leaves the
    destination as it is; a value of the wrong kind, or a number that is
    not an integer literal within the range of [int], is recorded as an
    error while decoding goes on with the remaining members. *)

Fixpoint fold_name (s : string) : string :=
  match s with
  | EmptyString => EmptyString
  | String a r =>
    match r with
    | String b r1 =>
      if bool_decide (byte_val a = 197%N) && bool_decide (byte_val b = 191%N)
      then String "S"%char (fold_name r1)
      else
        match r1 with
        | String c r2 =>
          if bool_decide (byte_val a = 226%N) && bool_decide (byte_val b = 132%N)
             && bool_decide (byte_val c = 170%N)
          then String "K"%char (fold_name r2)
          else String (to_upper a) (fold_name r)
        | EmptyString => String (to_upper a) (fold_name r)
        end
    | EmptyString => String (to_upper a) EmptyString
    end
  end.

Definition same_field (key tag : string) : bool :=
  bool_decide (fold_name key = fold_name tag).

Fixpoint digits_value (acc : Z) (s : string) : option Z :=
  match s with
  | EmptyString => Some acc
  | String c r =>
    if is_digit c then digits_value (acc * 10 + Z.of_N (byte_val c - 48)) r
    else None
  end.

(** [strconv.ParseInt(lit, 10, 64)] on a valid number literal. *)
Definition parse_int (lit : string) : option Z :=
  n ← match lit with
      | String "-" (String c r) => Z.opp <$> digits_value 0 (String c r)
      | String c r => digits_value 0 (String c r)
      | EmptyString => None
      end;
  if ((- 2 ^ 63 <=? n) && (n <? 2 ^ 63))%Z then Some n else None.

Definition store_string (v : value) (old : string) : string * bool :=
  match v with
  | Str s => (s, true)
  | Null => (old, true)
  | _ => (old, false)
  end.

Definition store_int (v : value) (old : Z) : Z * bool :=
  match v with
  | Number lit =>
    match parse_int lit with Some n => (n, true) | None => (old, false) end
  | Null => (old, true)
  | _ => (old, false)
  end.

Definition set_ErrorResponse_field (e : ErrorResponse) (key : string) (v : value)
  : ErrorResponse * bool :=
  if same_field key "message" then
    let '(s, ok) := store_string v (Message e) in
    (mkErrorResponse s (Code e) (Title e), ok)
  else if same_field key "code" then
    let '(n, ok) := store_int v (Code e) in
    (mkErrorResponse (Message e) n (Title e), ok)
  else if same_field key "title" then
    let '(s, ok) := store_string v (Title e) in
    (mkErrorResponse (Message e) (Code e) s, ok)
  else (e, true).

Definition decode_ErrorResponse (v : value) (e : ErrorResponse) : ErrorResponse * bool :=
  match v with
  | Object members =>
    fold_left
      (λ '(e, ok) '(k, v), let '(e', ok') := set_ErrorResponse_field e k v in (e', ok && ok'))
      members (e, true)
  | Null => (e, true)
  | _ => (e, false)
  end.

Definition decode_ErrorWrapper (v : value) (w : ErrorWrapper) : ErrorWrapper * bool :=
  match v with
  | Object members =>
    fold_left
      (λ '(w, ok) '(k, v),
         if same_field k "error" then
           let '(e', ok') := decode_ErrorResponse v (Error w) in
           (mkErrorWrapper e', ok && ok')
         else (w, ok))
      members (w, true)
  | Null => (w, true)
  | _ => (w, false)
  end.

(** [json.Unmarshal(data, &w)] for [w] of type [ErrorWrapper]: the
    updated [w] and the error, if any.  On a syntax error nothing is
    decoded. *)
Definition Unmarshal_ErrorWrapper (data : string) (w : ErrorWrapper)
  : ErrorWrapper * option error :=
  match parse data with
  | None => (w, Some (LibError "json" "invalid JSON text"))
  | Some v =>
    let '(w', ok) := decode_ErrorWrapper v w in
    (w', if ok then None else Some (LibError "json" "cannot unmarshal value into Go struct field"))
  end.

End json.

(** ** net/http, as far as the client uses it *)

Definition StatusOK : Z := 200.
Definition StatusCreated : Z := 201.
Definition StatusTooManyRequests : Z := 429.

(** [http.Header]: header name to values.  The keys are canonical MIME
    header names. *)
Abbreviation Header := (gmap string (list string)).

(** The bytes allowed in a header name (an RFC 7230 token). *)
Definition validHeaderFieldByte (c : ascii) : bool :=
  is_digit c || is_lower c || is_upper c
  || bool_decide (byte_val c ∈ [33; 35; 36; 37; 38; 39; 42; 43; 45; 46; 94; 95; 96; 124; 126]%N).

Fixpoint canonical_from (upper : bool) (s : string) : string :=
  match s with
  | EmptyString => EmptyString
  | String c r =>
    let c' := if upper then to_upper c else to_lower c in
    String c' (canonical_from (bool_decide (c' = "-"%char)) r)
  end.

(** [textproto.CanonicalMIMEHeaderKey]: the first letter and every letter
    after a hyphen in upper case, the others in lower case; a name with a
    byte that is not allowed in a header name is returned as it is. *)
Definition CanonicalMIMEHeaderKey (s : string) : string :=
  if string_forallb validHeaderFieldByte s then canonical_from true s else s.

Definition Header_Values (h : Header) (key : string) : list string :=
  default [] (h !! CanonicalMIMEHeaderKey key).

(** [h.Add(key, value)]: appends to the values of the canonical key. *)
Definition Header_Add (h : Header) (key value : string) : Header :=
  <[CanonicalMIMEHeaderKey key := Header_Values h key ++ [value]]> h.

(** [h.Get(key)]: the first value of the canonical key, or the empty
    string. *)
Definition Header_Get (h : Header) (key : string) : string :=
  match Header_Values h key with
  | [] => ""
  | v :: _ => v
  end.

Record Request := mkRequest {
  Method : string;
  URL : string;
  ReqHeader : Header;
  ReqBody : option string;
}.

(** A response body is a stream: [ioutil.ReadAll] returns the bytes it
    could read and the read error, if any. *)
Record BodyReader := mkBody {
  content : string;
  read_error : option error;
}.

Definition ReadAll (b : BodyReader) : string * option error :=
  (content b, read_error b).

Record Response := mkResponse {
  Status : string;
  StatusCode : Z;
  RespHeader : Header;
  Body : BodyReader;
}.

(** What [net/url] and [net/http] decide when a request is built:
    [request_line method url] is the construction error of
    [http.NewRequest] (a malformed method or URL), or the method and the
    parsed URL the request carries; [Values_Encode] is
    [url.Values.Encode]. *)
Class NetLib := {
  request_line : string → string → error + (string * string);
  Values_Encode : list (string * list string) → string;
}.

Definition http_NewRequest `{NetLib} (method url : string) (body : option string)
  : error + Request :=
  match request_line method url with
  | inl err => inl err
  | inr (m, u) => inr (mkRequest m u ∅ body)
  end.

(** ** The world: transport and standard output

    [http.Client.Do] hands the request to the transport.  A transport is
    stateful; its answer may depend on how many requests it has seen, so
    it is a function of the number of earlier round trips and of the
    request.  Every round trip and every line printed is appended to the
    trace. *)

Inductive event :=
  | Sent (req : Request)
  | Printed (v : option json.value).

Definition is_sent (e : event) : bool :=
  match e with Sent _ => true | Printed _ => false end.

Definition round_trips (tr : list event) : nat := length (filter is_sent tr).

Definition RoundTripper := nat → Request → error + Response.

Definition M (A : Type) : Type := list event → A * list event.

Definition ret {A} (a : A) : M A := λ tr, (a, tr).
Definition bind {A B} (m : M A) (k : A → M B) : M B :=
  λ tr, let '(a, tr') := m tr in k a tr'.

Notation "'let*' x := m 'in' k" := (bind m (λ x, k))
  (at level 10, x pattern, k at level 200, only parsing).

Definition emit (e : event) : M unit := λ tr, (tt, tr ++ [e]).

(** [fmt.Println(mm)] after [json.Unmarshal(data, &mm)] into an empty
    interface: the decoded value is printed, [<nil>] when [data] is not
    valid JSON. *)
Definition Println_decoded (data : string) : M unit :=
  emit (Printed (json.parse data)).

(** ** The client *)

Record Client := mkClient {
  Transport : RoundTripper;
  AuthToken : string;
}.

Definition Do (c : Client) (req : Request) : M (error + Response) :=
  λ tr, (Transport c (round_trips tr) req, tr ++ [Sent req]).

(** [json.Marshal] of a request value and [json.Unmarshal] into a
    response destination, for the types the caller chooses.  Unmarshal
    may have written part of the destination when it reports an error. *)
Class Marshaler (V : Type) := json_Marshal : V → error + string.
Class Unmarshaler (D : Type) := json_Unmarshal : string → D → D * option error.

Global Instance ErrorWrapper_Unmarshaler : Unmarshaler ErrorWrapper :=
  json.Unmarshal_ErrorWrapper.

(** [ReqHeaders] lists the entries of the caller's header map in the
    order the [range] loop of [sendRequest] visits them (Go leaves that
    order open; the properties below hold for every order).  [RespData]
    is a pointer to a byte slice: [None] for nil, else the bytes the
    slice holds. *)
Record RequestData (V D : Type) := mkRequestData {
  ReqHeaders : option (list (string * list string));
  Params : option (list (string * list string));
  ExpectedStatus : list Z;
  ReqValue : option V;
  RespValue : option D;
  ReqData : option string;
  RespData : option string;
}.
Arguments mkRequestData {V D}.
Arguments ReqHeaders {V D}.
Arguments Params {V D}.
Arguments ExpectedStatus {V D}.
Arguments ReqValue {V D}.
Arguments RespValue {V D}.
Arguments ReqData {V D}.
Arguments RespData {V D}.

Definition set_RespValue {V D} (r : RequestData V D) (d : option D) : RequestData V D :=
  mkRequestData (ReqHeaders r) (Params r) (ExpectedStatus r) (ReqValue r) d
    (ReqData r) (RespData r).

Definition set_RespData {V D} (r : RequestData V D) (b : option string) : RequestData V D :=
  mkRequestData (ReqHeaders r) (Params r) (ExpectedStatus r) (ReqValue r) (RespValue r)
    (ReqData r) b.

Definition add_header (req : Request) (key value : string) : Request :=
  mkRequest (Method req) (URL req) (Header_Add (ReqHeader req) key value) (ReqBody req).

(** The two nested [range] loops of [sendRequest]. *)
Definition add_values (req : Request) (header : string) (values : list string) : Request :=
  fold_left (λ req value, add_header req header value) values req.

Definition add_headers (req : Request) (extraHeaders : list (string * list string)) : Request :=
  fold_left (λ req '(header, values), add_values req header values) extraHeaders req.

(** The loop over [expectedStatus], left at the first match. *)
Fixpoint foundStatus (code : Z) (expectedStatus : list Z) : bool :=
  match expectedStatus with
  | [] => false
  | status :: rest => if (code =? status)%Z then true else foundStatus code rest
  end.

Definition zero_ErrorWrapper : ErrorWrapper := mkErrorWrapper (mkErrorResponse "" 0 "").

(** The error detail of a response with an unexpected status. *)
Definition errInfo_of (rawResp : Response) : ErrInfo :=
  let '(data, _) := ReadAll (Body rawResp) in
  if bool_decide (Header_Get (RespHeader rawResp) "Content-Type" = "application/json") then
    match json_Unmarshal data zero_ErrorWrapper with
    | (wrappedErr, None) => Structured (Error wrappedErr)
    | (_, Some _) => RawBody data
    end
  else RawBody data.

Definition sendRequest (c : Client) (req : Request)
    (extraHeaders : option (list (string * list string)))
    (expectedStatus : list Z) (payloadInfo : string) : M (string * option error) :=
  let req := match extraHeaders with
             | Some hs => add_headers req hs
             | None => req
             end in
  let req := if bool_decide (AuthToken c ≠ "")
             then add_header req "X-Auth-Token" (AuthToken c) else req in
  let* r := Do c req in
  match r with
  | inl err => ret ("", Some (AddContext err "failed executing the request"))
  | inr rawResp =>
    let expectedStatus :=
      if bool_decide (length expectedStatus = 0%nat) then [StatusOK] else expectedStatus in
    let found := foundStatus (StatusCode rawResp) expectedStatus in
    if negb found && bool_decide (0 < length expectedStatus)%nat then
      ret ("", Some (UnexpectedStatus (URL req) (Status rawResp) (errInfo_of rawResp)
                       payloadInfo))
    else
      let '(respBody, err) := ReadAll (Body rawResp) in
      match err with
      | Some e => ret (respBody, Some (AddContext e "failed reading the response body"))
      | None => ret (respBody, None)
      end
  end.

Section Facade.
Context `{NetLib} {V D : Type} `{Marshaler V} `{Unmarshaler D}.

Definition with_params (url : string) (params : option (list (string * list string)))
  : string :=
  match params with
  | Some p => url +:+ "?" +:+ Values_Encode p
  | None => url
  end.

Definition JsonRequest (c : Client) (method url : string) (reqData : RequestData V D)
  : M (RequestData V D * option error) :=
  let url := with_params url (Params reqData) in
  let dispatch (body : string) (built : error + Request) :=
    match built with
    | inl err => ret (reqData, Some (AddContext err "failed creating the request"))
    | inr req =>
      let req := add_header req "Content-Type" "application/json" in
      let req := add_header req "Accept" "application/json" in
      let* (respBody, err) :=
        sendRequest c req (ReqHeaders reqData) (ExpectedStatus reqData) body in
      match err with
      | Some e => ret (reqData, Some e)
      | None =>
        if nonempty respBody then
          match RespValue reqData with
          | Some dest =>
            let* _ := Println_decoded respBody in
            let '(dest', err) := json_Unmarshal respBody dest in
            ret (set_RespValue reqData (Some dest'),
                 (λ e, AddContext e ("failed unmarshaling the response body: " +:+ respBody))
                   <$> err)
          | None => ret (reqData, None)
          end
        else ret (reqData, None)
      end
    end in
  match ReqValue reqData with
  | Some v =>
    match json_Marshal v with
    | inl err => ret (reqData, Some (AddContext err "failed marshalling the request body"))
    | inr body => dispatch body (http_NewRequest method url (Some body))
    end
  | None => dispatch "" (http_NewRequest method url None)
  end.

Definition BinaryRequest (c : Client) (method url : string) (reqData : RequestData V D)
  : M (RequestData V D * option error) :=
  let url := with_params url (Params reqData) in
  let built :=
    match ReqData reqData with
    | Some data => http_NewRequest method url (Some data)
    | None => http_NewRequest method url None
    end in
  match built with
  | inl err => ret (reqData, Some (AddContext err "failed creating the request"))
  | inr req =>
    let req := add_header req "Content-Type" "application/octet-stream" in
    let req := add_header req "Accept" "application/octet-stream" in
    let* (respBody, err) :=
      sendRequest c req (ReqHeaders reqData) (ExpectedStatus reqData)
        (default "" (ReqData reqData)) in
    match err with
    | Some e => ret (reqData, Some e)
    | None =>
      if nonempty respBody then
        match RespData reqData with
        | Some _ => ret (set_RespData reqData (Some respBody), None)
        | None => ret (reqData, None)
        end
      else ret (reqData, None)
    end
  end.

End Facade.

(** ** Notions used to state the properties *)

(** The statuses a response is checked against: the caller's list, or the
    single default when the list is empty. *)
Definition allowed_statuses (expectedStatus : list Z) : list Z :=
  match expectedStatus with
  | [] => [StatusOK]
  | _ => expectedStatus
  end.

(** The caller-supplied values that land under the header [key], in the
    order the loops add them. *)
Definition extra_values (extraHeaders : option (list (string * list string))) (key : string)
  : list string :=
  match extraHeaders with
  | Some hs =>
    flat_map
      (λ '(header, values),
         if bool_decide (CanonicalMIMEHeaderKey header = CanonicalMIMEHeaderKey key)
         then values else [])
      hs
  | None => []
  end.

(** The request [sendRequest] hands to the transport: [req] with the
    caller's headers merged and the token added. *)
Definition outgoing (c : Client) (req : Request)
    (extraHeaders : option (list (string * list string))) : Request :=
  let req := match extraHeaders with
             | Some hs => add_headers req hs
             | None => req
             end in
  if bool_decide (AuthToken c ≠ "")
  then add_header req "X-Auth-Token" (AuthToken c) else req.

(** The outcome of [sendRequest] for a response, after the status check. *)
Definition resolve (url payloadInfo : string) (expectedStatus : list Z) (rawResp : Response)
  : string * option error :=
  if foundStatus (StatusCode rawResp) (allowed_statuses expectedStatus) then
    (content (Body rawResp),
     (λ e, AddContext e "failed reading the response body") <$> read_error (Body rawResp))
  else
    ("", Some (UnexpectedStatus url (Status rawResp) (errInfo_of rawResp) payloadInfo)).

(** The result of [sendRequest] when the transport is asked for [req']
    after the trace [tr]. *)
Definition answer (c : Client) (tr : list event) (req' : Request)
    (payloadInfo : string) (expectedStatus : list Z) : string * option error :=
  match Transport c (round_trips tr) req' with
  | inl err => ("", Some (AddContext err "failed executing the request"))
  | inr rawResp => resolve (URL req') payloadInfo expectedStatus rawResp
  end.

(** The events a computation appends when run after [tr], and the
    requests among them. *)
Definition new_events {A} (m : M A) (tr : list event) : list event :=
  drop (length tr) (m tr).2.

Definition dispatched {A} (m : M A) (tr : list event) : list Request :=
  omap (λ e, match e with Sent req => Some req | Printed _ => None end) (new_events m tr).

Definition transport_failure (e : error) : Prop :=
  ∃ cause, e = AddContext cause "failed executing the request".

Definition unexpected_status (e : error) : Prop :=
  ∃ url status info payload, e = UnexpectedStatus url status info payload.

Section Outgoing.
Context `{NetLib} {V D : Type} `{Marshaler V}.

(** The body [JsonRequest] sends: none for a nil request value, else
    its encoding, or the encoding error. *)
Definition json_body (reqData : RequestData V D) : error + option string :=
  match ReqValue reqData with
  | Some v => match json_Marshal v with
              | inl err => inl err
              | inr b => inr (Some b)
              end
  | None => inr None
  end.

(** The request [JsonRequest] dispatches, if it gets that far. *)
Definition json_outgoing (c : Client) (method url : string) (reqData : RequestData V D)
  : option Request :=
  match json_body reqData with
  | inl _ => None
  | inr body =>
    match http_NewRequest method (with_params url (Params reqData)) body with
    | inr req =>
      Some (outgoing c
              (add_header (add_header req "Content-Type" "application/json")
                 "Accept" "application/json")
              (ReqHeaders reqData))
    | inl _ => None
    end
  end.

(** The request [BinaryRequest] dispatches, if it gets that far. *)
Definition binary_outgoing (c : Client) (method url : string) (reqData : RequestData V D)
  : option Request :=
  match http_NewRequest method (with_params url (Params reqData)) (ReqData reqData) with
  | inr req =>
    Some (outgoing c
            (add_header (add_header req "Content-Type" "application/octet-stream")
               "Accept" "application/octet-stream")
            (ReqHeaders reqData))
  | inl _ => None
  end.

(** The text [JsonRequest] passes on as [payloadInfo]: the encoded
    request value. *)
Definition json_payload (reqData : RequestData V D) : string :=
  match json_body reqData with
  | inr (Some b) => b
  | _ => ""
  end.

End Outgoing.

(** The ways a call of [JsonRequest] can end: the updated descriptor,
    the error and the trace, case by case. *)
Section Outcomes.
Context `{NetLib} {V D : Type} `{Marshaler V} `{Unmarshaler D}.
Variables (c : Client) (method url : string) (reqData : RequestData V D) (tr : list event).

Inductive JsonOutcome : RequestData V D * option error * list event → Prop :=
  | JsonMarshalFailed err :
      json_body reqData = inl err →
      JsonOutcome (reqData, Some (AddContext err "failed marshalling the request body"), tr)
  | JsonBuildFailed body err :
      json_body reqData = inr body →
      http_NewRequest method (with_params url (Params reqData)) body = inl err →
      JsonOutcome (reqData, Some (AddContext err "failed creating the request"), tr)
  | JsonFailed req' respBody err :
      json_outgoing c method url reqData = Some req' →
      answer c tr req' (json_payload reqData) (ExpectedStatus reqData) = (respBody, Some err) →
      JsonOutcome (reqData, Some err, tr ++ [Sent req'])
  | JsonNotDecoded req' respBody :
      json_outgoing c method url reqData = Some req' →
      answer c tr req' (json_payload reqData) (ExpectedStatus reqData) = (respBody, None) →
      respBody = "" ∨ RespValue reqData = None →
      JsonOutcome (reqData, None, tr ++ [Sent req'])
  | JsonDecoded req' respBody dest dest' err :
      json_outgoing c method url reqData = Some req' →
      answer c tr req' (json_payload reqData) (ExpectedStatus reqData) = (respBody, None) →
      respBody ≠ "" →
      RespValue reqData = Some dest →
      json_Unmarshal respBody dest = (dest', err) →
      JsonOutcome
        (set_RespValue reqData (Some dest'),
         (λ e, AddContext e ("failed unmarshaling the response body: " +:+ respBody)) <$> err,
         tr ++ [Sent req'; Printed (json.parse respBody)]).

Inductive BinaryOutcome : RequestData V D * option error * list event → Prop :=
  | BinaryBuildFailed err :
      http_NewRequest method (with_params url (Params reqData)) (ReqData reqData) = inl err →
      BinaryOutcome (reqData, Some (AddContext err "failed creating the request"), tr)
  | BinaryFailed req' respBody err :
      binary_outgoing c method url reqData = Some req' →
      answer c tr req' (default "" (ReqData reqData)) (ExpectedStatus reqData)
        = (respBody, Some err) →
      BinaryOutcome (reqData, Some err, tr ++ [Sent req'])
  | BinaryNotWritten req' respBody :
      binary_outgoing c method url reqData = Some req' →
      answer c tr req' (default "" (ReqData reqData)) (ExpectedStatus reqData)
        = (respBody, None) →
      respBody = "" ∨ RespData reqData = None →
      BinaryOutcome (reqData, None, tr ++ [Sent req'])
  | BinaryWritten req' respBody old :
      binary_outgoing c method url reqData = Some req' →
      answer c tr req' (default "" (ReqData reqData)) (ExpectedStatus reqData)
        = (respBody, None) →
      respBody ≠ "" →
      RespData reqData = Some old →
      BinaryOutcome (set_RespData reqData (Some respBody), None, tr ++ [Sent req']).

End Outcomes.

(** The error-detail rule in the words of the specification: the detail
    is the triple when the declared content type is JSON and the body is a
    JSON object of shape
    [{"error": {"message": string, "code": integer, "title": string}}];
    any other shape is opaque raw content. *)
Module Spec.

Definition member (key : string) (ms : list (string * json.value)) : option json.value :=
  snd <$> find (λ kv, bool_decide (kv.1 = key)) ms.

Definition envelope (v : json.value) : option ErrorResponse :=
  match v with
  | json.Object [(k, json.Object ms)] =>
    if bool_decide (k = "error") && bool_decide (length ms = 3%nat) then
      match member "message" ms, member "code" ms, member "title" ms with
      | Some (json.Str m), Some (json.Number lit), Some (json.Str t) =>
        n ← json.parse_int lit; Some (mkErrorResponse m n t)
      | _, _, _ => None
      end
    else None
  | _ => None
  end.

Definition extract (body contentType : string) : ErrInfo :=
  if bool_decide (contentType = "application/json") then
    match json.parse body ≫= envelope with
    | Some e => Structured e
    | None => RawBody body
    end
  else RawBody body.

End Spec.

(** ** Test doubles: a request-line check, payloads and transports used
    to run the client on concrete inputs. *)
Module Double.

Definition bad_url_byte (c : ascii) : bool :=
  (byte_val c <=? 32)%N || bool_decide (byte_val c = 127%N).

Definition check_request_line (method url : string) : error + (string * string) :=
  if string_existsb bad_url_byte url then
    inl (LibError "net/url" "invalid character in URL")
  else if string_forallb validHeaderFieldByte method then
    inr (if bool_decide (method = "") then "GET" else method, url)
  else inl (LibError "net/http" "invalid method").

Definition encode_values (vs : list (string * list string)) : string :=
  String.concat "&" (flat_map (λ '(k, xs), (λ x, k +:+ "=" +:+ x) <$> xs) vs).

#[global] Instance net : NetLib :=
  {| request_line := check_request_line; Values_Encode := encode_values |}.

(** A request value: a boolean, or a channel, which has no JSON
    encoding. *)
Inductive payload :=
  | Flag (b : bool)
  | Channel.

#[global] Instance payload_Marshaler : Marshaler payload :=
  λ p, match p with
       | Flag true => inr "true"
       | Flag false => inr "false"
       | Channel => inl (LibError "json" "unsupported type: chan int")
       end.

Definition response (code : Z) (status contentType body : string) : Response :=
  mkResponse status code {["Content-Type" := [contentType]]} (mkBody body None).

Definition too_many : Response :=
  response StatusTooManyRequests "429 Too Many Requests" "text/plain" "slow down".

Definition ok (contentType body : string) : Response :=
  response StatusOK "200 OK" contentType body.

Definition always (resp : Response) : RoundTripper := λ _ _, inr resp.

(** Throttles the first [k] requests, then answers [resp]. *)
Definition throttle (k : nat) (resp : Response) : RoundTripper :=
  λ n _, inr (if (n <? k)%nat then too_many else resp).

Definition refused : RoundTripper := λ _ _, inl (LibError "net" "connection refused").

Definition plain (V D : Type) : RequestData V D :=
  mkRequestData None None [] None None None None.

End Double.

(** ** Rendering errors as text

    [fmt.Sprintf] with the verbs the client uses: [%d] of an [int] is
    its decimal numeral; [%s] of a string is the string; [%v] of a byte
    slice is the decimal values of its bytes between brackets, separated
    by spaces; [%v] of a struct value is its fields between braces,
    separated by spaces. *)

Definition fmt_d (n : Z) : string := NilEmpty.string_of_int (Z.to_int n).

Fixpoint fmt_v_elems (b : string) : string :=
  match b with
  | EmptyString => ""
  | String c EmptyString => fmt_d (Z.of_N (byte_val c))
  | String c r => fmt_d (Z.of_N (byte_val c)) +:+ " " +:+ fmt_v_elems r
  end.

Definition fmt_v_bytes (b : string) : string := "[" +:+ fmt_v_elems b +:+ "]".

(** [%v] of [errInfo].  The interface holds either the byte slice or an
    [ErrorResponse] value; the [Error] method has a pointer receiver, so
    the value is printed as a struct, not through [Error]. *)
Definition fmt_v (info : ErrInfo) : string :=
  match info with
  | RawBody b => fmt_v_bytes b
  | Structured e =>
    "{" +:+ Message e +:+ " " +:+ fmt_d (Code e) +:+ " " +:+ Title e +:+ "}"
  end.

(** [func (e *ErrorResponse) Error() string]. *)
Definition ErrorResponse_Error (e : ErrorResponse) : string :=
  "Failed: " +:+ fmt_d (Code e) +:+ " " +:+ Title e +:+ ": " +:+ Message e.

(** The text [sendRequest] gives [errors.New] for an unexpected
    status. *)
Definition unexpected_status_text (url status : string) (info : ErrInfo)
    (payloadInfo : string) : string :=
  "request (" +:+ url +:+ ") returned unexpected status: " +:+ status
  +:+ "; error info: " +:+ fmt_v info +:+ "; request body: " +:+ payloadInfo.

(** The bytes [%d] of an [int] is made of. *)
Definition sign_or_digit (c : ascii) : bool := is_digit c || bool_decide (c = "-"%char).

(** The bytes [%v] of a byte slice is made of. *)
Definition numeral_char (c : ascii) : bool :=
  is_digit c || bool_decide (c = " "%char) || bool_decide (c = "["%char)
  || bool_decide (c = "]"%char).

(** ** The service packages: swift and nova

    The object-storage and compute packages reach the HTTP client
    through the interface [client.Client] (package
    [launchpad.net/goose/client], not among the sources).  The interface
    is a parameter: [W] is the state of the client and of the world
    behind it, [SendRequest] may update the descriptor it is given and
    returns the error, [MakeServiceURL] returns the URL and the error. *)

(** [goosehttp.RequestData] as the functions modelled below use it: the
    fields they set.  [ReqReader] is the reader of the body to send;
    [RespValue] holds what the pointer points to. *)
Record ServiceRequest (D : Type) := mkServiceRequest {
  svcReqHeaders : option Header;
  svcParams : option (gmap string (list string));
  svcExpectedStatus : list Z;
  svcRespValue : option D;
  svcReqReader : option BodyReader;
}.
Arguments mkServiceRequest {D}.
Arguments svcReqHeaders {D}.
Arguments svcParams {D}.
Arguments svcExpectedStatus {D}.
Arguments svcRespValue {D}.
Arguments svcReqReader {D}.

Class ServiceClient (W : Type) := {
  SendRequest : ∀ {D : Type},
    string → string → string → ServiceRequest D → W → ServiceRequest D * option error * W;
  MakeServiceURL : string → list string → W → string * option error * W;
}.

(** Modelled from the spec: [errors.Newf] (package
    [launchpad.net/goose/errors], not among the sources), called with a
    cause and a formatted message.  "Every internal failure is wrapped
    with a short human-readable context string ... the underlying cause
    remains inspectable by the caller."  The error code the swift package
    passes along ([errors.UnspecifiedError]) is not represented. *)
Definition Newf (cause : error) (message : string) : error :=
  WithContext message cause.


(** The method names [client.PUT], [client.DELETE], [client.HEAD] and
    [client.GET] of that package are the HTTP method names. *)
Module swift.
Section Swift.
Context {W : Type} `{ServiceClient W}.

Definition no_request {D : Type} : ServiceRequest D :=
  mkServiceRequest None None [] None None.



Definition touchObject {D : Type} (requestData : ServiceRequest D)
    (op containerName objectName : string) : W → ServiceRequest D * option error * W :=
  λ w,
    let path := "/" +:+ containerName +:+ "/" +:+ objectName in
    let '(requestData, err, w) := SendRequest op "object-store" path requestData w in
    (requestData,
     (λ e, Newf e ("failed to " +:+ op +:+ " object " +:+ objectName
                   +:+ " from container " +:+ containerName)) <$> err,
     w).

(** The result [headers] is the named result, nil when it is copied into
    the descriptor and never assigned afterwards. *)
Definition HeadObject (containerName objectName : string)
  : W → option Header * option error * W :=
  λ w,
    let headers : option Header := None in
    let requestData : ServiceRequest unit :=
      mkServiceRequest headers None [] None None in
    let '(_, err, w) := touchObject requestData "HEAD" containerName objectName w in
    (headers, err, w).




Definition URL (containerName file : string) : W → string * option error * W :=
  MakeServiceURL "object-store" [containerName; file].

(** [expires] is a [time.Time]; the code does not look at it. *)
Definition SignedURL {T : Type} (containerName file : string) (expires : T)
  : W → string * option error * W :=
  λ w,
    let '(rawURL, err, w) := URL containerName file w in
    match err with
    | Some e => ("", Some e, w)
    | None => (rawURL, None, w)
    end.

End Swift.
End swift.

Module nova.
Section Nova.
Context {W : Type} `{ServiceClient W}.



End Nova.
End nova.

(** Test doubles for [client.Client]: a client whose calls all fail, and
    one whose calls all succeed and change nothing. *)
Module ServiceDouble.


Definition serving : ServiceClient unit :=
  {| SendRequest := λ D method svc path requestData w, (requestData, None, w);
     MakeServiceURL := λ svc parts w,
       ("http://store/" +:+ String.concat "/" parts, None, w) |}.

End ServiceDouble.


(** * Properties *)

(** ** Headers *)

Section HeaderFacts.
Implicit Types (h : Header) (req : Request) (key header value : string).

Lemma Header_Values_Add h header value key :
  Header_Values (Header_Add h header value) key =
  Header_Values h key ++
    (if bool_decide (CanonicalMIMEHeaderKey header = CanonicalMIMEHeaderKey key)
     then [value] else []).
Proof.
  unfold Header_Add, Header_Values. case_bool_decide as Hk.
  - rewrite Hk. by rewrite lookup_insert_eq.
  - rewrite lookup_insert_ne; [|done]. by rewrite app_nil_r.
Qed.

Lemma add_values_Values req header values key :
  Header_Values (ReqHeader (add_values req header values)) key =
  Header_Values (ReqHeader req) key ++
    (if bool_decide (CanonicalMIMEHeaderKey header = CanonicalMIMEHeaderKey key)
     then values else []).
Proof.
  unfold add_values. revert req.
  induction values as [|v vs IH]; intros req; simpl.
  - case_bool_decide; by rewrite app_nil_r.
  - rewrite IH. simpl. rewrite Header_Values_Add.
    case_bool_decide; rewrite <- app_assoc; done.
Qed.

Lemma add_headers_Values req hs key :
  Header_Values (ReqHeader (add_headers req hs)) key =
  Header_Values (ReqHeader req) key ++ extra_values (Some hs) key.
Proof.
  unfold add_headers. revert req.
  induction hs as [|[header values] hs IH]; intros req; simpl.
  - by rewrite app_nil_r.
  - rewrite IH, add_values_Values. simpl. by rewrite <- app_assoc.
Qed.

Lemma add_values_line req header values :
  Method (add_values req header values) = Method req
  ∧ URL (add_values req header values) = URL req
  ∧ ReqBody (add_values req header values) = ReqBody req.
Proof.
  unfold add_values. revert req.
  induction values as [|v vs IH]; intros req; simpl; [done|].
  destruct (IH (add_header req header v)) as (-> & -> & ->). done.
Qed.

Lemma add_headers_line req hs :
  Method (add_headers req hs) = Method req
  ∧ URL (add_headers req hs) = URL req
  ∧ ReqBody (add_headers req hs) = ReqBody req.
Proof.
  unfold add_headers. revert req.
  induction hs as [|[header values] hs IH]; intros req; simpl; [done|].
  destruct (IH (add_values req header values)) as (-> & -> & ->).
  apply add_values_line.
Qed.

(** The headers of the outgoing request: what the request had, then the
    caller's values, then the token. *)
Lemma outgoing_Values c req extraHeaders key :
  Header_Values (ReqHeader (outgoing c req extraHeaders)) key =
  Header_Values (ReqHeader req) key ++ extra_values extraHeaders key ++
    (if bool_decide (AuthToken c ≠ "")
        && bool_decide (CanonicalMIMEHeaderKey "X-Auth-Token" = CanonicalMIMEHeaderKey key)
     then [AuthToken c] else []).
Proof.
  unfold outgoing.
  assert (Header_Values
            (ReqHeader match extraHeaders with
                       | Some hs => add_headers req hs
                       | None => req
                       end) key
          = Header_Values (ReqHeader req) key ++ extra_values extraHeaders key) as Hm.
  { destruct extraHeaders as [hs|]; [apply add_headers_Values|].
    simpl. by rewrite app_nil_r. }
  case_bool_decide; simpl.
  - rewrite Header_Values_Add, Hm. by rewrite <- app_assoc.
  - rewrite Hm. by rewrite app_nil_r.
Qed.

Lemma outgoing_URL c req extraHeaders :
  URL (outgoing c req extraHeaders) = URL req.
Proof.
  unfold outgoing. case_bool_decide; simpl;
    destruct extraHeaders; simpl; try done; apply add_headers_line.
Qed.

End HeaderFacts.

(** ** The monad and the trace *)

Lemma foundStatus_elem_of code expectedStatus :
  foundStatus code expectedStatus = true ↔ code ∈ expectedStatus.
Proof.
  induction expectedStatus as [|status rest IH]; simpl.
  - split; [done|]. intros Hin. by apply elem_of_nil in Hin.
  - rewrite elem_of_cons. destruct (Z.eqb_spec code status) as [->|Hne].
    + split; auto.
    + rewrite IH. split; [auto|]. intros [?|?]; [done|auto].
Qed.

Lemma foundStatus_not_elem_of code expectedStatus :
  foundStatus code expectedStatus = false ↔ code ∉ expectedStatus.
Proof.
  rewrite <- foundStatus_elem_of. destruct (foundStatus code expectedStatus); naive_solver.
Qed.

Lemma defaulted_statuses expectedStatus :
  (if bool_decide (length expectedStatus = 0%nat) then [StatusOK] else expectedStatus)
  = allowed_statuses expectedStatus.
Proof. by destruct expectedStatus. Qed.

Lemma allowed_statuses_nonempty expectedStatus :
  bool_decide (0 < length (allowed_statuses expectedStatus))%nat = true.
Proof. destruct expectedStatus; apply bool_decide_eq_true; simpl; lia. Qed.

Lemma new_events_app {A} (m : M A) tr a evs :
  m tr = (a, tr ++ evs) → new_events m tr = evs.
Proof. unfold new_events. intros ->. simpl. by rewrite drop_app_length. Qed.

(** [sendRequest] makes one round trip with the outgoing request and
    resolves on its answer. *)
Lemma sendRequest_run c req extraHeaders expectedStatus payloadInfo tr :
  sendRequest c req extraHeaders expectedStatus payloadInfo tr =
  (answer c tr (outgoing c req extraHeaders) payloadInfo expectedStatus,
   tr ++ [Sent (outgoing c req extraHeaders)]).
Proof.
  unfold sendRequest, answer, bind, Do. fold (outgoing c req extraHeaders).
  destruct (Transport c (round_trips tr) (outgoing c req extraHeaders)) as [err|rawResp];
    [done|].
  rewrite defaulted_statuses, allowed_statuses_nonempty, andb_true_r.
  unfold resolve. rewrite outgoing_URL.
  destruct (foundStatus _ _); simpl; [|done].
  unfold ReadAll. by destruct (read_error (Body rawResp)).
Qed.

(** ** The two entry points, case by case *)

Section Runs.
Context `{NetLib} {V D : Type} `{Marshaler V} `{Unmarshaler D}.
Implicit Types (c : Client) (reqData : RequestData V D) (tr : list event).

Lemma nonempty_false s : nonempty s = false ↔ s = "".
Proof. by destruct s. Qed.

Lemma nonempty_true s : nonempty s = true ↔ s ≠ "".
Proof. by destruct s. Qed.

Lemma JsonRequest_outcome c method url reqData tr :
  JsonOutcome c method url reqData tr (JsonRequest c method url reqData tr).
Proof.
  unfold JsonRequest. cbv zeta.
  destruct (json_body reqData) as [merr|body] eqn:Hbody.
  { pose proof (JsonMarshalFailed c method url reqData tr merr Hbody) as Hfail.
    unfold json_body in Hbody.
    destruct (ReqValue reqData) as [v|]; [|done].
    destruct (json_Marshal v) as [e|b]; [|done].
    by simplify_eq. }
  assert (json_payload reqData = default "" body) as Hpay.
  { unfold json_payload. rewrite Hbody. by destruct body. }
  assert (match ReqValue reqData with
          | Some v => match json_Marshal v with
                      | inl _ => False
                      | inr b => body = Some b
                      end
          | None => body = None
          end) as Hcase.
  { unfold json_body in Hbody. destruct (ReqValue reqData) as [v|]; [|by simplify_eq].
    destruct (json_Marshal v); by simplify_eq. }
  assert (∀ req, http_NewRequest method (with_params url (Params reqData)) body = inr req →
            json_outgoing c method url reqData = Some
              (outgoing c (add_header (add_header req "Content-Type" "application/json")
                             "Accept" "application/json") (ReqHeaders reqData))) as Hout.
  { intros req Hnew. unfold json_outgoing. by rewrite Hbody, Hnew. }
  destruct (ReqValue reqData) as [v|]; [destruct (json_Marshal v) as [|b]; [done|]|];
    subst body; simpl in Hpay;
    (destruct (http_NewRequest _ _ _) as [err|req] eqn:Hnew;
     [eapply JsonBuildFailed; eauto|]);
    unfold bind; rewrite sendRequest_run;
    specialize (Hout req eq_refl);
    (destruct (answer _ _ _ _ _) as [respBody [e|]] eqn:Hans;
     [eapply JsonFailed; [exact Hout|rewrite Hpay; exact Hans]|]);
    (destruct (nonempty respBody) eqn:Hne;
     [|eapply JsonNotDecoded;
       [exact Hout|rewrite Hpay; exact Hans|left; by apply nonempty_false]]);
    (destruct (RespValue reqData) as [dest|] eqn:Hdest;
     [|eapply JsonNotDecoded; [exact Hout|rewrite Hpay; exact Hans|by right]]);
    unfold Println_decoded, emit, ret;
    destruct (json_Unmarshal respBody dest) as [dest' uerr] eqn:Hun;
    rewrite <- app_assoc; simpl;
    (eapply JsonDecoded;
     [exact Hout|rewrite Hpay; exact Hans|by apply nonempty_true|done|exact Hun]).
Qed.

Lemma BinaryRequest_outcome c method url reqData tr :
  BinaryOutcome c method url reqData tr (BinaryRequest c method url reqData tr).
Proof.
  unfold BinaryRequest.
  assert (match ReqData reqData with
          | Some data => http_NewRequest method (with_params url (Params reqData)) (Some data)
          | None => http_NewRequest method (with_params url (Params reqData)) None
          end = http_NewRequest method (with_params url (Params reqData)) (ReqData reqData))
    as -> by by destruct (ReqData reqData).
  destruct (http_NewRequest _ _ _) as [err|req] eqn:Hnew.
  { by apply BinaryBuildFailed. }
  unfold bind. rewrite sendRequest_run.
  assert (binary_outgoing c method url reqData = Some
            (outgoing c (add_header (add_header req "Content-Type" "application/octet-stream")
                           "Accept" "application/octet-stream") (ReqHeaders reqData))) as Hout.
  { unfold binary_outgoing. by rewrite Hnew. }
  destruct (answer _ _ _ _ _) as [respBody [e|]] eqn:Hans.
  { by eapply BinaryFailed. }
  destruct (nonempty respBody) eqn:Hne.
  - destruct (RespData reqData) as [old|] eqn:Hdest.
    + eapply BinaryWritten; eauto. by apply nonempty_true.
    + eapply BinaryNotWritten; eauto.
  - eapply BinaryNotWritten; eauto. left. by apply nonempty_false.
Qed.

End Runs.

(** ** Status classification *)

Lemma resolve_accepted url payloadInfo expectedStatus rawResp :
  StatusCode rawResp ∈ allowed_statuses expectedStatus →
  resolve url payloadInfo expectedStatus rawResp =
  (content (Body rawResp),
   (λ e, AddContext e "failed reading the response body") <$> read_error (Body rawResp)).
Proof. intros Hin. unfold resolve. by apply foundStatus_elem_of in Hin as ->. Qed.

Lemma resolve_rejected url payloadInfo expectedStatus rawResp :
  StatusCode rawResp ∉ allowed_statuses expectedStatus →
  resolve url payloadInfo expectedStatus rawResp =
  ("", Some (UnexpectedStatus url (Status rawResp) (errInfo_of rawResp) payloadInfo)).
Proof. intros Hin. unfold resolve. by apply foundStatus_not_elem_of in Hin as ->. Qed.

(** C3.  When the transport answers the outgoing request with [rawResp],
    [sendRequest] treats the response as a success (it returns the body
    that was read, with at most a read error) exactly when the status code
    is 200 for an empty [expectedStatus], and exactly when the code is a
    member of [expectedStatus] otherwise; every other code, 201 included,
    gives the unexpected-status error. *)
Theorem status_classification c req extraHeaders expectedStatus payloadInfo tr rawResp :
  Transport c (round_trips tr) (outgoing c req extraHeaders) = inr rawResp →
  let result := (sendRequest c req extraHeaders expectedStatus payloadInfo tr).1 in
  let success :=
    result =
    (content (Body rawResp),
     (λ e, AddContext e "failed reading the response body") <$> read_error (Body rawResp)) in
  (expectedStatus = [] → (success ↔ StatusCode rawResp = StatusOK))
  ∧ (expectedStatus ≠ [] → (success ↔ StatusCode rawResp ∈ expectedStatus))
  ∧ (¬ success →
     result =
     ("", Some (UnexpectedStatus (URL req) (Status rawResp) (errInfo_of rawResp) payloadInfo))).
Proof.
  intros Hresp result success. subst result success.
  rewrite sendRequest_run. unfold answer. rewrite Hresp. simpl.
  assert (StatusCode rawResp ∈ allowed_statuses expectedStatus ↔
          resolve (URL (outgoing c req extraHeaders)) payloadInfo expectedStatus rawResp =
          (content (Body rawResp),
           (λ e, AddContext e "failed reading the response body")
             <$> read_error (Body rawResp))) as Hiff.
  { split; [apply resolve_accepted|].
    intros Heq. destruct (decide (StatusCode rawResp ∈ allowed_statuses expectedStatus))
      as [|Hnot]; [done|].
    rewrite resolve_rejected in Heq by done.
    destruct (read_error (Body rawResp)); simplify_eq. }
  split; [|split].
  - intros ->. rewrite <- Hiff. simpl. by rewrite list_elem_of_singleton.
  - intros Hne. rewrite <- Hiff. by destruct expectedStatus.
  - intros Hno. rewrite <- Hiff in Hno. rewrite resolve_rejected by done.
    by rewrite outgoing_URL.
Qed.

(** A 201 answer to a call that lists no status is an error; listing 201
    makes it a success. *)
Lemma status_classification_witness :
  (sendRequest (mkClient (Double.always (Double.response StatusCreated "201 Created" "text/plain" "made")) "")
     (mkRequest "PUT" "http://h/c" ∅ None) None [] "" []).1
  = ("", Some (UnexpectedStatus "http://h/c" "201 Created" (RawBody "made") ""))
  ∧ ((sendRequest (mkClient (Double.always (Double.response StatusCreated "201 Created" "text/plain" "made")) "")
        (mkRequest "PUT" "http://h/c" ∅ None) None [202; StatusCreated] "" []).1
     = ("made", None) ↔ StatusCreated ∈ [202; StatusCreated]).
Proof.
  set (c := mkClient (Double.always
                        (Double.response StatusCreated "201 Created" "text/plain" "made")) "").
  set (req := mkRequest "PUT" "http://h/c" ∅ None).
  split.
  - destruct (status_classification c req None [] "" []
                (Double.response StatusCreated "201 Created" "text/plain" "made") eq_refl)
      as (Hdefault & _ & Hreject).
    specialize (Hdefault eq_refl).
    rewrite Hreject; [reflexivity|].
    intros Hs. apply Hdefault in Hs. discriminate Hs.
  - destruct (status_classification c req None [202; StatusCreated] "" []
                (Double.response StatusCreated "201 Created" "text/plain" "made") eq_refl)
      as (_ & Hlisted & _).
    apply Hlisted. discriminate.
Defined.

(** ** What is dispatched *)

Lemma dispatched_app {A} (m : M A) tr a evs :
  m tr = (a, tr ++ evs) →
  dispatched m tr =
  omap (λ e, match e with Sent req => Some req | Printed _ => None end) evs.
Proof. intros Hm. unfold dispatched. by rewrite (new_events_app m tr a evs). Qed.

(** [sendRequest] dispatches exactly one request, the outgoing one. *)
Lemma sendRequest_dispatched c req extraHeaders expectedStatus payloadInfo tr :
  dispatched (sendRequest c req extraHeaders expectedStatus payloadInfo) tr
  = [outgoing c req extraHeaders].
Proof. erewrite dispatched_app; [|apply sendRequest_run]. done. Qed.

Lemma Header_Values_empty key : Header_Values ∅ key = [].
Proof. unfold Header_Values. by rewrite lookup_empty. Qed.

Section Dispatch.
Context `{NetLib} {V D : Type} `{Marshaler V} `{Unmarshaler D}.
Implicit Types (c : Client) (reqData : RequestData V D) (tr : list event).

Lemma http_NewRequest_header method url body req :
  http_NewRequest method url body = inr req → ReqHeader req = ∅.
Proof.
  unfold http_NewRequest. destruct (request_line method url) as [|[m u]]; [done|].
  by intros [= <-].
Qed.

Lemma JsonRequest_dispatched c method url reqData tr :
  dispatched (JsonRequest c method url reqData) tr
  = option_list (json_outgoing c method url reqData).
Proof.
  pose proof (JsonRequest_outcome c method url reqData tr) as Hout.
  unfold dispatched, new_events.
  inversion Hout as [err Hb Heq|body err Hb Hnew Heq|req' b e Hj _ Heq
                    |req' b Hj _ _ Heq|req' b d d' e Hj _ _ _ _ Heq];
    simpl; rewrite ?drop_app_length, ?drop_all; simpl.
  - unfold json_outgoing. by rewrite Hb.
  - unfold json_outgoing. by rewrite Hb, Hnew.
  - by rewrite Hj.
  - by rewrite Hj.
  - by rewrite Hj.
Qed.

Lemma BinaryRequest_dispatched c method url reqData tr :
  dispatched (BinaryRequest c method url reqData) tr
  = option_list (binary_outgoing c method url reqData).
Proof.
  pose proof (BinaryRequest_outcome c method url reqData tr) as Hout.
  unfold dispatched, new_events.
  inversion Hout as [err Hnew Heq|req' b e Hj _ Heq|req' b Hj _ _ Heq
                    |req' b old Hj _ _ _ Heq];
    simpl; rewrite ?drop_app_length, ?drop_all; simpl.
  - unfold binary_outgoing. by rewrite Hnew.
  - by rewrite Hj.
  - by rewrite Hj.
  - by rewrite Hj.
Qed.

(** The values of every header of the request [JsonRequest] dispatches. *)
Lemma json_outgoing_Values c method url reqData req' key :
  json_outgoing c method url reqData = Some req' →
  Header_Values (ReqHeader req') key =
  (if bool_decide (CanonicalMIMEHeaderKey "Content-Type" = CanonicalMIMEHeaderKey key)
   then ["application/json"] else [])
  ++ (if bool_decide (CanonicalMIMEHeaderKey "Accept" = CanonicalMIMEHeaderKey key)
      then ["application/json"] else [])
  ++ extra_values (ReqHeaders reqData) key
  ++ (if bool_decide (AuthToken c ≠ "")
         && bool_decide (CanonicalMIMEHeaderKey "X-Auth-Token" = CanonicalMIMEHeaderKey key)
      then [AuthToken c] else []).
Proof.
  unfold json_outgoing. destruct (json_body reqData) as [|body]; [done|].
  destruct (http_NewRequest _ _ _) as [|req] eqn:Hnew; [done|]. intros [= <-].
  rewrite outgoing_Values. simpl. rewrite !Header_Values_Add.
  rewrite (http_NewRequest_header _ _ _ _ Hnew), Header_Values_empty. simpl.
  by rewrite <- !app_assoc.
Qed.

Lemma binary_outgoing_Values c method url reqData req' key :
  binary_outgoing (V:=V) (D:=D) c method url reqData = Some req' →
  Header_Values (ReqHeader req') key =
  (if bool_decide (CanonicalMIMEHeaderKey "Content-Type" = CanonicalMIMEHeaderKey key)
   then ["application/octet-stream"] else [])
  ++ (if bool_decide (CanonicalMIMEHeaderKey "Accept" = CanonicalMIMEHeaderKey key)
      then ["application/octet-stream"] else [])
  ++ extra_values (ReqHeaders reqData) key
  ++ (if bool_decide (AuthToken c ≠ "")
         && bool_decide (CanonicalMIMEHeaderKey "X-Auth-Token" = CanonicalMIMEHeaderKey key)
      then [AuthToken c] else []).
Proof.
  unfold binary_outgoing.
  destruct (http_NewRequest _ _ _) as [|req] eqn:Hnew; [done|]. intros [= <-].
  rewrite outgoing_Values. simpl. rewrite !Header_Values_Add.
  rewrite (http_NewRequest_header _ _ _ _ Hnew), Header_Values_empty. simpl.
  by rewrite <- !app_assoc.
Qed.

End Dispatch.

(** ** Headers of the dispatched request *)

Lemma canonical_Content_Type : CanonicalMIMEHeaderKey "Content-Type" = "Content-Type".
Proof. reflexivity. Qed.
Lemma canonical_Accept : CanonicalMIMEHeaderKey "Accept" = "Accept".
Proof. reflexivity. Qed.
Lemma canonical_X_Auth_Token : CanonicalMIMEHeaderKey "X-Auth-Token" = "X-Auth-Token".
Proof. reflexivity. Qed.

Ltac fixed_keys :=
  rewrite ?canonical_Content_Type, ?canonical_Accept, ?canonical_X_Auth_Token;
  repeat (rewrite bool_decide_eq_false_2 by discriminate);
  repeat (rewrite bool_decide_eq_true_2 by reflexivity);
  rewrite ?andb_false_r, ?andb_true_r; simpl; rewrite ?app_nil_r.

Section HeaderClaims.
Context `{NetLib} {V D : Type} `{Marshaler V} `{Unmarshaler D}.
Implicit Types (c : Client) (reqData : RequestData V D) (tr : list event).

(** C4.  [sendRequest] dispatches one request; its [X-Auth-Token] values
    are those the request had, then the caller's, then the client's token
    when the token is not empty; with an empty token the request is the
    incoming one with the caller's headers merged and nothing else.  For
    the two entry points the values are the caller's followed by the
    token, if any. *)
Theorem auth_token_header c :
  (∀ req extraHeaders expectedStatus payloadInfo tr,
     ∃ req',
       dispatched (sendRequest c req extraHeaders expectedStatus payloadInfo) tr = [req']
       ∧ Header_Values (ReqHeader req') "X-Auth-Token" =
         Header_Values (ReqHeader req) "X-Auth-Token"
         ++ extra_values extraHeaders "X-Auth-Token"
         ++ (if bool_decide (AuthToken c ≠ "") then [AuthToken c] else [])
       ∧ (AuthToken c = "" →
          req' = match extraHeaders with
                 | Some hs => add_headers req hs
                 | None => req
                 end))
  ∧ (∀ method url reqData tr req',
       req' ∈ dispatched (JsonRequest c method url reqData) tr
       ∨ req' ∈ dispatched (BinaryRequest c method url reqData) tr →
       Header_Values (ReqHeader req') "X-Auth-Token" =
       extra_values (ReqHeaders reqData) "X-Auth-Token"
       ++ (if bool_decide (AuthToken c ≠ "") then [AuthToken c] else [])).
Proof.
  split.
  - intros req extraHeaders expectedStatus payloadInfo tr.
    exists (outgoing c req extraHeaders). split; [apply sendRequest_dispatched|]. split.
    + rewrite outgoing_Values.
      by rewrite (bool_decide_eq_true_2 (_ = _)), andb_true_r by reflexivity.
    + intros Htok. unfold outgoing. by rewrite bool_decide_eq_false_2 by naive_solver.
  - intros method url reqData tr req' [Hin|Hin].
    + rewrite JsonRequest_dispatched in Hin.
      destruct (json_outgoing c method url reqData) as [r|] eqn:Hout; simpl in Hin;
        [|by apply elem_of_nil in Hin].
      apply list_elem_of_singleton in Hin as ->.
      rewrite (json_outgoing_Values _ _ _ _ _ _ Hout). by fixed_keys.
    + rewrite BinaryRequest_dispatched in Hin.
      destruct (binary_outgoing c method url reqData) as [r|] eqn:Hout; simpl in Hin;
        [|by apply elem_of_nil in Hin].
      apply list_elem_of_singleton in Hin as ->.
      rewrite (binary_outgoing_Values _ _ _ _ _ _ Hout). by fixed_keys.
Qed.

(** C9.  On the request [JsonRequest] dispatches, [Content-Type] and
    [Accept] hold [application/json] first and then the caller's values
    for those names; likewise [application/octet-stream] for
    [BinaryRequest]; and for every header the values a request holds
    before [sendRequest] merges the caller's headers are a prefix of the
    values it is dispatched with. *)
Theorem facade_headers_kept c method url reqData tr req' :
  (req' ∈ dispatched (JsonRequest c method url reqData) tr →
     Header_Values (ReqHeader req') "Content-Type"
     = "application/json" :: extra_values (ReqHeaders reqData) "Content-Type"
     ∧ Header_Values (ReqHeader req') "Accept"
       = "application/json" :: extra_values (ReqHeaders reqData) "Accept"
     ∧ Header_Get (ReqHeader req') "Content-Type" = "application/json"
     ∧ Header_Get (ReqHeader req') "Accept" = "application/json")
  ∧ (req' ∈ dispatched (BinaryRequest c method url reqData) tr →
     Header_Values (ReqHeader req') "Content-Type"
     = "application/octet-stream" :: extra_values (ReqHeaders reqData) "Content-Type"
     ∧ Header_Values (ReqHeader req') "Accept"
       = "application/octet-stream" :: extra_values (ReqHeaders reqData) "Accept"
     ∧ Header_Get (ReqHeader req') "Content-Type" = "application/octet-stream"
     ∧ Header_Get (ReqHeader req') "Accept" = "application/octet-stream")
  ∧ (∀ req extraHeaders key,
       Header_Values (ReqHeader req) key
       `prefix_of` Header_Values (ReqHeader (outgoing c req extraHeaders)) key).
Proof.
  split; [|split].
  - intros Hin. rewrite JsonRequest_dispatched in Hin.
    destruct (json_outgoing c method url reqData) as [r|] eqn:Hout; simpl in Hin;
      [|by apply elem_of_nil in Hin].
    apply list_elem_of_singleton in Hin as ->.
    unfold Header_Get. rewrite !(json_outgoing_Values _ _ _ _ _ _ Hout). by fixed_keys.
  - intros Hin. rewrite BinaryRequest_dispatched in Hin.
    destruct (binary_outgoing c method url reqData) as [r|] eqn:Hout; simpl in Hin;
      [|by apply elem_of_nil in Hin].
    apply list_elem_of_singleton in Hin as ->.
    unfold Header_Get. rewrite !(binary_outgoing_Values _ _ _ _ _ _ Hout). by fixed_keys.
  - intros req extraHeaders key. rewrite outgoing_Values. by eexists.
Qed.

End HeaderClaims.

(** A client with a token, a caller who sends an [X-Auth-Token] and a
    [Content-Type] of their own: the token comes last, the caller's
    content type after the one [JsonRequest] sets. *)
Lemma auth_token_header_witness :
  match
    json_outgoing (mkClient Double.refused "tok") "POST" "http://h/x"
      (mkRequestData (V:=Double.payload) (D:=ErrorWrapper)
         (Some [("x-auth-token", ["evil"])]) None [] None None None None)
  with
  | Some req' => Header_Values (ReqHeader req') "X-Auth-Token" = ["evil"; "tok"]
  | None => False
  end.
Proof.
  destruct (json_outgoing _ _ _ _) as [req'|] eqn:Hout.
  - rewrite (proj2 (auth_token_header (mkClient Double.refused "tok")) "POST" "http://h/x"
               (mkRequestData (V:=Double.payload) (D:=ErrorWrapper)
                  (Some [("x-auth-token", ["evil"])]) None [] None None None None)
               [] req'); [reflexivity|].
    left. rewrite JsonRequest_dispatched, Hout. apply list_elem_of_singleton. reflexivity.
  - vm_compute in Hout. discriminate Hout.
Defined.

Lemma facade_headers_kept_witness :
  match
    json_outgoing (mkClient Double.refused "") "POST" "http://h/x"
      (mkRequestData (V:=Double.payload) (D:=ErrorWrapper)
         (Some [("content-type", ["text/plain"])]) None [] None None None None)
  with
  | Some req' =>
    Header_Values (ReqHeader req') "Content-Type" = ["application/json"; "text/plain"]
  | None => False
  end.
Proof.
  destruct (json_outgoing _ _ _ _) as [req'|] eqn:Hout.
  - destruct (facade_headers_kept (mkClient Double.refused "") "POST" "http://h/x"
                (mkRequestData (V:=Double.payload) (D:=ErrorWrapper)
                   (Some [("content-type", ["text/plain"])]) None [] None None None None)
                [] req') as [Hjson _].
    destruct Hjson as [-> _]; [|reflexivity].
    rewrite JsonRequest_dispatched, Hout. apply list_elem_of_singleton. reflexivity.
  - vm_compute in Hout. discriminate Hout.
Defined.

(** ** Early and silent exits *)


(** An error of [sendRequest] that is a transport failure or an unexpected
    status comes with an empty body. *)
Lemma answer_failed_body c tr req' payloadInfo expectedStatus respBody err :
  answer c tr req' payloadInfo expectedStatus = (respBody, Some err) →
  transport_failure err ∨ unexpected_status err →
  respBody = "".
Proof.
  unfold answer, resolve. intros Hans Hkind.
  destruct (Transport c (round_trips tr) req') as [e|rawResp]; [by simplify_eq|].
  destruct (foundStatus _ _); [|by simplify_eq].
  destruct (read_error (Body rawResp)) as [e|]; simplify_eq/=.
  destruct Hkind as [[cause Hc]|(u & s & i & p & Hc)]; unfold AddContext in *; simplify_eq.
Qed.

Section ExitClaims.
Context `{NetLib} {V D : Type} `{Marshaler V} `{Unmarshaler D}.
Implicit Types (c : Client) (reqData : RequestData V D) (tr : list event).

(** C7.  When the request value has no JSON encoding, [JsonRequest]
    returns the encoding error with the marshalling context at once: the
    descriptor is as it was and the trace is as it was (nothing was
    dispatched), whatever the method and the URL are. *)
Theorem marshal_failure_is_immediate c method url reqData tr v err :
  ReqValue reqData = Some v →
  json_Marshal v = inl err →
  JsonRequest c method url reqData tr
  = (reqData, Some (AddContext err "failed marshalling the request body"), tr)
  ∧ dispatched (JsonRequest c method url reqData) tr = [].
Proof.
  intros Hv Hm.
  assert (JsonRequest c method url reqData tr
          = (reqData, Some (AddContext err "failed marshalling the request body"), tr))
    as Hrun.
  { unfold JsonRequest. cbv zeta. by rewrite Hv, Hm. }
  split; [done|].
  rewrite JsonRequest_dispatched. unfold json_outgoing, json_body. by rewrite Hv, Hm.
Qed.


(** C10.  An error that is a transport failure or an unexpected status:
    [sendRequest] returns it with an empty body, and [JsonRequest] and
    [BinaryRequest] return it with the descriptor, both destinations
    included, as it was. *)
Theorem failed_call_leaves_destination c err :
  transport_failure err ∨ unexpected_status err →
  (∀ req extraHeaders expectedStatus payloadInfo tr respBody,
     (sendRequest c req extraHeaders expectedStatus payloadInfo tr).1 = (respBody, Some err) →
     respBody = "")
  ∧ (∀ method url reqData tr reqData',
       (JsonRequest c method url reqData tr).1 = (reqData', Some err) →
       reqData' = reqData)
  ∧ (∀ method url reqData tr reqData',
       (BinaryRequest c method url reqData tr).1 = (reqData', Some err) →
       reqData' = reqData).
Proof.
  intros Hkind. split; [|split].
  - intros req extraHeaders expectedStatus payloadInfo tr respBody.
    rewrite sendRequest_run. simpl. intros Hans. by eapply answer_failed_body.
  - intros method url reqData tr reqData' Hres.
    pose proof (JsonRequest_outcome c method url reqData tr) as Hrun.
    inversion Hrun as [e Hb Heq|body e Hb Hnew Heq|r b e Hj Ha Heq
                      |r b Hj Ha Hx Heq|r b d d' e Hj Ha Hx Hy Hz Heq];
      rewrite <- Heq in Hres; simpl in Hres; try by simplify_eq.
    injection Hres as <- Herr. destruct e as [e|]; simplify_eq/=.
    destruct Hkind as [[cause Hc]|(u & s & i & p & Hc)]; unfold AddContext in *;
      simplify_eq.
  - intros method url reqData tr reqData' Hres.
    pose proof (BinaryRequest_outcome c method url reqData tr) as Hrun.
    inversion Hrun as [e Hnew Heq|r b e Hj Ha Heq|r b Hj Ha Hx Heq
                      |r b old Hj Ha Hx Hy Heq];
      rewrite <- Heq in Hres; simpl in Hres; by simplify_eq.
Qed.

End ExitClaims.

(** A channel as request value, with a method and a URL that
    [http.NewRequest] would refuse: the marshalling error is what comes
    back. *)
Lemma marshal_failure_is_immediate_witness :
  JsonRequest (mkClient Double.refused "tok") "PO ST" "http://h/ x"
    (mkRequestData (V:=Double.payload) (D:=ErrorWrapper)
       None None [] (Some Double.Channel) (Some zero_ErrorWrapper) None None) []
  = (mkRequestData None None [] (Some Double.Channel) (Some zero_ErrorWrapper) None None,
     Some (AddContext (LibError "json" "unsupported type: chan int")
             "failed marshalling the request body"),
     []).
Proof.
  apply (marshal_failure_is_immediate (mkClient Double.refused "tok") "PO ST" "http://h/ x"
           (mkRequestData (V:=Double.payload) (D:=ErrorWrapper)
              None None [] (Some Double.Channel) (Some zero_ErrorWrapper) None None)
           [] Double.Channel (LibError "json" "unsupported type: chan int"));
    reflexivity.
Defined.


(** A refused connection: the destination still holds what it held. *)
Lemma failed_call_leaves_destination_witness :
  (BinaryRequest (V:=Double.payload) (D:=ErrorWrapper) (mkClient Double.refused "")
     "GET" "http://h/x"
     (mkRequestData None None [] None None None (Some "stale")) []).1.1
  = mkRequestData None None [] None None None (Some "stale").
Proof.
  apply (proj2 (proj2 (failed_call_leaves_destination (V:=Double.payload) (D:=ErrorWrapper)
                         (mkClient Double.refused "")
                         (AddContext (LibError "net" "connection refused")
                            "failed executing the request")
                         (or_introl (ex_intro _ (LibError "net" "connection refused") eq_refl))))
           "GET" "http://h/x" (mkRequestData None None [] None None None (Some "stale")) []).
  reflexivity.
Defined.

(** ** Binary responses *)

Lemma answer_ok_inv c tr req' payloadInfo expectedStatus rawResp respBody :
  Transport c (round_trips tr) req' = inr rawResp →
  answer c tr req' payloadInfo expectedStatus = (respBody, None) →
  respBody = content (Body rawResp)
  ∧ StatusCode rawResp ∈ allowed_statuses expectedStatus
  ∧ read_error (Body rawResp) = None.
Proof.
  unfold answer, resolve. intros ->.
  destruct (foundStatus _ _) eqn:Hfound; [|done].
  apply foundStatus_elem_of in Hfound.
  destruct (read_error (Body rawResp)); [done|]. by intros [= <-].
Qed.

Section BinaryClaims.
Context `{NetLib} {V D : Type} `{Marshaler V} `{Unmarshaler D}.
Implicit Types (c : Client) (reqData : RequestData V D) (tr : list event).

(** C5, as amended.  A [BinaryRequest] call with a non-nil [RespData]
    that returns no error, for the response [rawResp] of the transport:
    when the body is not empty the destination holds the body, byte for
    byte; when the body is empty the destination is not written and the
    descriptor is as it was. *)
Theorem binary_body_is_copied c method url reqData tr req' rawResp old reqData' tr' :
  binary_outgoing c method url reqData = Some req' →
  Transport c (round_trips tr) req' = inr rawResp →
  RespData reqData = Some old →
  BinaryRequest c method url reqData tr = (reqData', None, tr') →
  (content (Body rawResp) ≠ "" → RespData reqData' = Some (content (Body rawResp)))
  ∧ (content (Body rawResp) = "" → reqData' = reqData ∧ RespData reqData' = Some old).
Proof.
  intros Hout Hresp Hold Hrun.
  pose proof (BinaryRequest_outcome c method url reqData tr) as Hcase.
  rewrite Hrun in Hcase.
  inversion Hcase as [e Hnew Heq|r b e Hj Ha Heq|r b Hj Ha Hx Heq|r b o Hj Ha Hx Hy Heq];
    subst; assert (r = req') as -> by congruence;
    destruct (answer_ok_inv _ _ _ _ _ _ _ Hresp Ha) as (-> & _ & _).
  - destruct Hx as [Hempty|Hnil]; [|congruence]. split; [congruence|done].
  - split; [done|]. intros Hempty. congruence.
Qed.

End BinaryClaims.

(** An object of 5 bytes comes back and replaces what the destination
    held. *)
Lemma binary_body_is_copied_witness :
  match
    binary_outgoing (V:=Double.payload) (D:=ErrorWrapper)
      (mkClient (Double.always (Double.ok "application/octet-stream" "bytes")) "")
      "GET" "http://h/o" (mkRequestData None None [] None None None (Some "stale"))
  with
  | Some req' =>
    RespData
      (BinaryRequest (V:=Double.payload) (D:=ErrorWrapper)
         (mkClient (Double.always (Double.ok "application/octet-stream" "bytes")) "")
         "GET" "http://h/o" (mkRequestData None None [] None None None (Some "stale")) []).1.1
    = Some "bytes"
  | None => False
  end.
Proof.
  destruct (binary_outgoing _ _ _ _) as [req'|] eqn:Hout.
  - apply (proj1 (binary_body_is_copied (V:=Double.payload) (D:=ErrorWrapper)
                    (mkClient (Double.always (Double.ok "application/octet-stream" "bytes")) "")
                    "GET" "http://h/o"
                    (mkRequestData None None [] None None None (Some "stale")) [] req'
                    (Double.ok "application/octet-stream" "bytes") "stale" _ _
                    Hout eq_refl eq_refl eq_refl)).
    discriminate.
  - vm_compute in Hout. discriminate Hout.
Defined.

(** C5 as stated fails: the destination holds [stale], the transport
    answers 200 with an empty body, the call returns no error, and the
    destination still holds [stale], which is not the body. *)
Lemma binary_body_is_copied_counterexample :
  ¬ (∀ (c : Client) (method url : string) (reqData : RequestData Double.payload ErrorWrapper)
       (tr : list event) (req' : Request) (rawResp : Response) (old : string)
       (reqData' : RequestData Double.payload ErrorWrapper) (tr' : list event),
       binary_outgoing c method url reqData = Some req' →
       Transport c (round_trips tr) req' = inr rawResp →
       RespData reqData = Some old →
       BinaryRequest c method url reqData tr = (reqData', None, tr') →
       RespData reqData' = Some (content (Body rawResp))).
Proof.
  intros Hclaim.
  pose (c := mkClient (Double.always (Double.ok "application/octet-stream" "")) "").
  pose (reqData := mkRequestData (V:=Double.payload) (D:=ErrorWrapper)
                     None None [] None None None (Some "stale")).
  destruct (binary_outgoing c "GET" "http://h/o" reqData) as [req'|] eqn:Hout;
    [|vm_compute in Hout; discriminate Hout].
  specialize (Hclaim c "GET" "http://h/o" reqData [] req'
                (Double.ok "application/octet-stream" "") "stale"
                (BinaryRequest c "GET" "http://h/o" reqData []).1.1
                (BinaryRequest c "GET" "http://h/o" reqData []).2
                Hout eq_refl eq_refl eq_refl).
  vm_compute in Hclaim. discriminate Hclaim.
Qed.

(** ** Throttling *)

Lemma answer_rejected c tr req' payloadInfo expectedStatus rawResp :
  Transport c (round_trips tr) req' = inr rawResp →
  StatusCode rawResp ∉ allowed_statuses expectedStatus →
  answer c tr req' payloadInfo expectedStatus =
  ("", Some (UnexpectedStatus (URL req') (Status rawResp) (errInfo_of rawResp) payloadInfo)).
Proof. intros Hresp Hout. unfold answer. by rewrite Hresp, resolve_rejected. Qed.

Section ThrottlingClaims.
Context `{NetLib} {V D : Type} `{Marshaler V} `{Unmarshaler D}.
Implicit Types (c : Client) (reqData : RequestData V D) (tr : list event).

(** C6, as amended.  Against a transport that answers every request with
    status 429, a call whose accepted statuses do not include 429 (as is
    the case for an empty [ExpectedStatus]) returns an error and leaves
    the descriptor as it was. *)
Theorem throttled_call_fails c method url reqData tr :
  (∀ n req, ∃ rawResp,
      Transport c n req = inr rawResp ∧ StatusCode rawResp = StatusTooManyRequests) →
  StatusTooManyRequests ∉ allowed_statuses (ExpectedStatus reqData) →
  (∃ err, (JsonRequest c method url reqData tr).1 = (reqData, Some err))
  ∧ (∃ err, (BinaryRequest c method url reqData tr).1 = (reqData, Some err)).
Proof.
  intros Hthrottle Hnot.
  assert (∀ req' payloadInfo, ∃ err,
            answer c tr req' payloadInfo (ExpectedStatus reqData) = ("", Some err)) as Hans.
  { intros req' payloadInfo.
    destruct (Hthrottle (round_trips tr) req') as (rawResp & Hresp & Hcode).
    eexists. apply answer_rejected; [done|]. by rewrite Hcode. }
  split.
  - pose proof (JsonRequest_outcome c method url reqData tr) as Hrun.
    inversion Hrun as [e Hb Heq|body e Hb Hnew Heq|r b e Hj Ha Heq
                      |r b Hj Ha Hx Heq|r b d d' e Hj Ha Hx Hy Hz Heq];
      simpl; eauto;
      destruct (Hans r (json_payload reqData)) as [err Herr]; congruence.
  - pose proof (BinaryRequest_outcome c method url reqData tr) as Hrun.
    inversion Hrun as [e Hnew Heq|r b e Hj Ha Heq|r b Hj Ha Hx Heq|r b o Hj Ha Hx Hy Heq];
      simpl; eauto;
      destruct (Hans r (default "" (ReqData reqData))) as [err Herr]; congruence.
Qed.

End ThrottlingClaims.

Lemma throttled_call_fails_witness :
  ∃ err,
    (JsonRequest (mkClient (Double.always Double.too_many) "") "GET" "http://h/x"
       (Double.plain Double.payload ErrorWrapper) []).1
    = (Double.plain Double.payload ErrorWrapper, Some err).
Proof.
  apply (throttled_call_fails (mkClient (Double.always Double.too_many) "") "GET" "http://h/x"
           (Double.plain Double.payload ErrorWrapper) []).
  - intros n req. exists Double.too_many. split; reflexivity.
  - simpl. intros Hin. apply list_elem_of_singleton in Hin. discriminate Hin.
Defined.

(** C6 as stated fails: a caller who lists 429 among the expected
    statuses gets the throttling answer back as a success. *)
Lemma throttled_call_fails_counterexample :
  ¬ (∀ (c : Client) (method url : string)
       (reqData : RequestData Double.payload ErrorWrapper) (tr : list event),
       (∀ n req, ∃ rawResp,
           Transport c n req = inr rawResp ∧ StatusCode rawResp = StatusTooManyRequests) →
       ∃ err, (JsonRequest c method url reqData tr).1.2 = Some err).
Proof.
  intros Hclaim.
  destruct (Hclaim (mkClient (Double.always Double.too_many) "") "GET" "http://h/x"
              (mkRequestData None None [StatusTooManyRequests] None None None None) [])
    as [err Herr].
  - intros n req. exists Double.too_many. split; reflexivity.
  - vm_compute in Herr. discriminate Herr.
Qed.

(** No call makes more than one round trip. *)
Lemma at_most_one_round_trip `{NetLib} {V D : Type} `{Marshaler V} `{Unmarshaler D}
    (c : Client) (method url : string) (reqData : RequestData V D) (tr : list event) :
  (length (dispatched (JsonRequest c method url reqData) tr) ≤ 1
   ∧ length (dispatched (BinaryRequest c method url reqData) tr) ≤ 1)%nat.
Proof.
  rewrite JsonRequest_dispatched, BinaryRequest_dispatched.
  destruct (json_outgoing _ _ _ _), (binary_outgoing _ _ _ _); simpl; lia.
Qed.

(** C1 fails on the code.  The transport throttles the first [S k]
    requests and would answer 200 afterwards; the call makes one round
    trip, does not wait or try again, and returns the 429 as an
    unexpected status.  The only event is that round trip. *)
Theorem throttled_request_is_not_retried k :
  JsonRequest (mkClient (Double.throttle (S k) (Double.ok "application/json" "{}")) "")
    "GET" "http://h/x" (Double.plain Double.payload ErrorWrapper) []
  = (Double.plain Double.payload ErrorWrapper,
     Some (UnexpectedStatus "http://h/x" "429 Too Many Requests" (RawBody "slow down") ""),
     [Sent (mkRequest "GET" "http://h/x"
              (Header_Add (Header_Add ∅ "Content-Type" "application/json")
                 "Accept" "application/json")
              None)]).
Proof. vm_compute. reflexivity. Qed.

(** ** The error detail *)

(** A body of the envelope shape decodes to its triple. *)
Lemma envelope_decodes v e :
  Spec.envelope v = Some e →
  json.decode_ErrorWrapper v zero_ErrorWrapper = (mkErrorWrapper e, true).
Proof.
  unfold Spec.envelope. intros Henv.
  destruct v as [| | | |?|members]; try done.
  destruct members as [|[k inner] [|]]; try done; [|by destruct inner].
  destruct inner as [| | | |?|ms]; try done.
  destruct (bool_decide (k = "error")) eqn:Hk; [|done].
  apply bool_decide_eq_true in Hk as ->.
  destruct (bool_decide (length ms = 3%nat)) eqn:Hlen; [|done].
  apply bool_decide_eq_true in Hlen. simpl in Henv.
  destruct ms as [|[k1 v1] [|[k2 v2] [|[k3 v3] [|]]]]; try done.
  unfold Spec.member in Henv. simpl in Henv.
  repeat case_bool_decide; simplify_eq/=;
    repeat match goal with
           | Hm : match ?x with _ => _ end = Some _ |- _ => destruct x eqn:?; simplify_eq/=
           end;
    match goal with
    | Hm : json.parse_int ?l ≫= _ = Some _ |- _ =>
      destruct (json.parse_int l) as [n|] eqn:Hp; simplify_eq/=
    end;
    unfold json.decode_ErrorWrapper, json.decode_ErrorResponse; simpl;
    unfold json.set_ErrorResponse_field, json.store_int; simpl;
    rewrite ?Hp; simpl; rewrite ?Hp; simpl; rewrite ?Hp; reflexivity.
Qed.

Lemma envelope_unmarshals body e :
  json.parse body ≫= Spec.envelope = Some e →
  json.Unmarshal_ErrorWrapper body zero_ErrorWrapper = (mkErrorWrapper e, None).
Proof.
  unfold json.Unmarshal_ErrorWrapper.
  destruct (json.parse body) as [v|]; [|done]. simpl. intros Henv.
  by rewrite (envelope_decodes v e Henv).
Qed.

(** C2, as amended.  For a response whose status is not accepted,
    [sendRequest] returns the unexpected-status error (never another
    failure), and its detail is the decoded triple exactly when the
    [Content-Type] of the response is [application/json] and
    [json.Unmarshal] of the body into the envelope struct reports no
    error; in every other case (another content type, or an error of
    [json.Unmarshal]) the detail is the bytes read from the body.  A body
    of the envelope shape always decodes to its triple. *)
Theorem error_detail c req extraHeaders expectedStatus payloadInfo tr rawResp :
  Transport c (round_trips tr) (outgoing c req extraHeaders) = inr rawResp →
  StatusCode rawResp ∉ allowed_statuses expectedStatus →
  let body := content (Body rawResp) in
  let declared_json := Header_Get (RespHeader rawResp) "Content-Type" = "application/json" in
  ∃ info,
    (sendRequest c req extraHeaders expectedStatus payloadInfo tr).1
    = ("", Some (UnexpectedStatus (URL req) (Status rawResp) info payloadInfo))
    ∧ (∀ e, info = Structured e ↔
            declared_json
            ∧ json.Unmarshal_ErrorWrapper body zero_ErrorWrapper = (mkErrorWrapper e, None))
    ∧ (¬ declared_json → info = RawBody body)
    ∧ (∀ w err,
         json.Unmarshal_ErrorWrapper body zero_ErrorWrapper = (w, Some err) →
         info = RawBody body)
    ∧ (∀ e, declared_json → json.parse body ≫= Spec.envelope = Some e → info = Structured e).
Proof.
  intros Hresp Hstatus body declared_json. exists (errInfo_of rawResp).
  split.
  { rewrite sendRequest_run. simpl.
    rewrite (answer_rejected _ _ _ _ _ rawResp) by done. by rewrite outgoing_URL. }
  unfold errInfo_of, ReadAll, json_Unmarshal, ErrorWrapper_Unmarshaler.
  fold body. subst declared_json.
  destruct (json.Unmarshal_ErrorWrapper body zero_ErrorWrapper) as [[w] [err|]] eqn:Hun;
    case_bool_decide as Hct; simpl.
  - split; [|split; [|split]]; try done.
    + intros e. split; [done|]. intros [_ [=]].
    + intros e _ Henv. apply envelope_unmarshals in Henv. congruence.
  - split; [|split; [|split]]; try done. intros e. split; [done|]. by intros [? _].
  - split; [|split; [|split]]; try done.
    + intros e. split; [by intros [= ->]|]. by intros [_ [= ->]].
    + intros e _ Henv. apply envelope_unmarshals in Henv. congruence.
  - split; [|split; [|split]]; try done. intros e. split; [done|]. by intros [? _].
Qed.

(** The two answers of the error-body scenario: the envelope with
    content type JSON, and the text [boom] with another content type. *)
Lemma error_detail_witness :
  (sendRequest
     (mkClient
        (Double.always
           (Double.response 413 "413 Request Entity Too Large" "application/json"
              ("{" +:+ q "error" +:+ ":{" +:+ q "message" +:+ ":" +:+ q "quota exceeded" +:+ ","
               +:+ q "code" +:+ ":413," +:+ q "title" +:+ ":" +:+ q "Over Limit" +:+ "}}")))
        "")
     (mkRequest "GET" "http://h/x" ∅ None) None [] "" []).1
  = ("", Some (UnexpectedStatus "http://h/x" "413 Request Entity Too Large"
                 (Structured (mkErrorResponse "quota exceeded" 413 "Over Limit")) ""))
  ∧ (sendRequest
       (mkClient
          (Double.always (Double.response 413 "413 Request Entity Too Large" "text/plain" "boom"))
          "")
       (mkRequest "GET" "http://h/x" ∅ None) None [] "" []).1
    = ("", Some (UnexpectedStatus "http://h/x" "413 Request Entity Too Large"
                   (RawBody "boom") "")).
Proof.
  assert (413 ∉ allowed_statuses []) as Hnot.
  { intros Hin. apply list_elem_of_singleton in Hin. discriminate Hin. }
  split.
  - destruct (error_detail
                (mkClient
                   (Double.always
                      (Double.response 413 "413 Request Entity Too Large" "application/json"
                         ("{" +:+ q "error" +:+ ":{" +:+ q "message" +:+ ":"
                          +:+ q "quota exceeded" +:+ "," +:+ q "code" +:+ ":413,"
                          +:+ q "title" +:+ ":" +:+ q "Over Limit" +:+ "}}")))
                   "")
                (mkRequest "GET" "http://h/x" ∅ None) None [] "" [] _ eq_refl Hnot)
      as (info & Hrun & Hstructured & _).
    rewrite Hrun.
    assert (info = Structured (mkErrorResponse "quota exceeded" 413 "Over Limit")) as ->;
      [|reflexivity].
    apply Hstructured. split; vm_compute; reflexivity.
  - destruct (error_detail
                (mkClient
                   (Double.always
                      (Double.response 413 "413 Request Entity Too Large" "text/plain" "boom"))
                   "")
                (mkRequest "GET" "http://h/x" ∅ None) None [] "" [] _ eq_refl Hnot)
      as (info & Hrun & _ & Hother & _).
    rewrite Hrun, Hother; [reflexivity|]. vm_compute. discriminate.
Defined.

(** C2 as stated fails: the body [{}] is not of the envelope shape, yet
    with content type JSON [json.Unmarshal] accepts it, and the detail is
    the triple of zero values, not the raw body. *)
Lemma error_detail_counterexample :
  ¬ (∀ c req extraHeaders expectedStatus payloadInfo tr rawResp,
       Transport c (round_trips tr) (outgoing c req extraHeaders) = inr rawResp →
       StatusCode rawResp ∉ allowed_statuses expectedStatus →
       (sendRequest c req extraHeaders expectedStatus payloadInfo tr).1
       = ("", Some (UnexpectedStatus (URL req) (Status rawResp)
                      (Spec.extract (content (Body rawResp))
                         (Header_Get (RespHeader rawResp) "Content-Type"))
                      payloadInfo))).
Proof.
  intros Hclaim.
  specialize (Hclaim
                (mkClient
                   (Double.always
                      (Double.response 413 "413 Request Entity Too Large" "application/json" "{}"))
                   "")
                (mkRequest "GET" "http://h/x" ∅ None) None [] "" [] _ eq_refl).
  assert (413 ∉ allowed_statuses []) as Hnot.
  { intros Hin. apply list_elem_of_singleton in Hin. discriminate Hin. }
  specialize (Hclaim Hnot). vm_compute in Hclaim. discriminate Hclaim.
Qed.

(** * Further properties of the client *)

Section CallOutcomes.
Context `{NetLib} {V D : Type} `{Marshaler V} `{Unmarshaler D}.
Implicit Types (c : Client) (reqData : RequestData V D) (tr : list event).

(** X1.  When [http.NewRequest] refuses the method or the URL (with the
    query string appended), both entry points return that error with the
    context "failed creating the request"; the descriptor and the trace
    are as they were, so nothing was dispatched.  For [JsonRequest] this
    is the outcome whenever the request value could be encoded. *)
Theorem construction_failure_is_immediate c method url reqData tr err :
  request_line method (with_params url (Params reqData)) = inl err →
  (∀ body, json_body reqData = inr body →
     JsonRequest c method url reqData tr
     = (reqData, Some (AddContext err "failed creating the request"), tr))
  ∧ BinaryRequest c method url reqData tr
    = (reqData, Some (AddContext err "failed creating the request"), tr).
Proof.
  intros Hline.
  assert (∀ body, http_NewRequest method (with_params url (Params reqData)) body = inl err)
    as Hnew.
  { intros body. unfold http_NewRequest. by rewrite Hline. }
  split.
  - intros body Hbody.
    pose proof (JsonRequest_outcome c method url reqData tr) as Hrun.
    assert (json_outgoing c method url reqData = None) as Hnone.
    { unfold json_outgoing. by rewrite Hbody, Hnew. }
    inversion Hrun as [e Hb Heq|b e Hb Hn Heq|r b e Hj Ha Heq
                      |r b Hj Ha Hx Heq|r b d d' e Hj Ha Hx Hy Hz Heq];
      try congruence; rewrite Hnew in Hn; congruence.
  - pose proof (BinaryRequest_outcome c method url reqData tr) as Hrun.
    assert (binary_outgoing c method url reqData = None) as Hnone.
    { unfold binary_outgoing. by rewrite Hnew. }
    inversion Hrun as [e Hn Heq|r b e Hj Ha Heq|r b Hj Ha Hx Heq|r b o Hj Ha Hx Hy Heq];
      try congruence; rewrite Hnew in Hn; congruence.
Qed.

(** X2.  When the transport fails, the call returns the transport's
    error under the context "failed executing the request", after exactly
    that one round trip, with the descriptor as it was. *)
Theorem transport_failure_is_reported c method url reqData tr cause :
  (∀ req',
     json_outgoing c method url reqData = Some req' →
     Transport c (round_trips tr) req' = inl cause →
     JsonRequest c method url reqData tr
     = (reqData, Some (AddContext cause "failed executing the request"), tr ++ [Sent req']))
  ∧ (∀ req',
       binary_outgoing c method url reqData = Some req' →
       Transport c (round_trips tr) req' = inl cause →
       BinaryRequest c method url reqData tr
       = (reqData, Some (AddContext cause "failed executing the request"),
          tr ++ [Sent req'])).
Proof.
  split; intros req' Hout Hfail.
  - pose proof (JsonRequest_outcome c method url reqData tr) as Hrun.
    inversion Hrun as [e Hb Heq|b e Hb Hn Heq|r b e Hj Ha Heq
                      |r b Hj Ha Hx Heq|r b d d' e Hj Ha Hx Hy Hz Heq];
      try (unfold json_outgoing in Hout; rewrite Hb in Hout; try rewrite Hn in Hout;
           congruence);
      assert (r = req') as -> by congruence;
      unfold answer in Ha; rewrite Hfail in Ha; congruence.
  - pose proof (BinaryRequest_outcome c method url reqData tr) as Hrun.
    inversion Hrun as [e Hn Heq|r b e Hj Ha Heq|r b Hj Ha Hx Heq|r b o Hj Ha Hx Hy Heq];
      try (unfold binary_outgoing in Hout; rewrite Hn in Hout; congruence);
      assert (r = req') as -> by congruence;
      unfold answer in Ha; rewrite Hfail in Ha; congruence.
Qed.


(** X4.  A response with an accepted status whose body fails to read:
    [sendRequest] returns the bytes read so far with the read error under
    the context "failed reading the response body"; the entry points
    return that error and leave the descriptor as it was, whatever was
    read. *)
Theorem read_failure_is_reported c method url reqData tr rawResp cause :
  StatusCode rawResp ∈ allowed_statuses (ExpectedStatus reqData) →
  read_error (Body rawResp) = Some cause →
  (∀ req extraHeaders payloadInfo,
     Transport c (round_trips tr) (outgoing c req extraHeaders) = inr rawResp →
     (sendRequest c req extraHeaders (ExpectedStatus reqData) payloadInfo tr).1
     = (content (Body rawResp), Some (AddContext cause "failed reading the response body")))
  ∧ (∀ req',
       json_outgoing c method url reqData = Some req' →
       Transport c (round_trips tr) req' = inr rawResp →
       JsonRequest c method url reqData tr
       = (reqData, Some (AddContext cause "failed reading the response body"),
          tr ++ [Sent req']))
  ∧ (∀ req',
       binary_outgoing c method url reqData = Some req' →
       Transport c (round_trips tr) req' = inr rawResp →
       BinaryRequest c method url reqData tr
       = (reqData, Some (AddContext cause "failed reading the response body"),
          tr ++ [Sent req'])).
Proof.
  intros Hstatus Hread.
  assert (∀ req' payloadInfo,
            Transport c (round_trips tr) req' = inr rawResp →
            answer c tr req' payloadInfo (ExpectedStatus reqData)
            = (content (Body rawResp),
               Some (AddContext cause "failed reading the response body"))) as Hans.
  { intros req' payloadInfo Hresp. unfold answer.
    rewrite Hresp, resolve_accepted by done. by rewrite Hread. }
  split; [|split].
  - intros req extraHeaders payloadInfo Hresp. rewrite sendRequest_run. simpl. auto.
  - intros req' Hout Hresp. specialize (Hans req' (json_payload reqData) Hresp).
    pose proof (JsonRequest_outcome c method url reqData tr) as Hrun.
    inversion Hrun as [e Hb Heq|b e Hb Hn Heq|r b e Hj Ha Heq
                      |r b Hj Ha Hx Heq|r b d d' e Hj Ha Hx Hy Hz Heq];
      try (unfold json_outgoing in Hout; rewrite Hb in Hout; try rewrite Hn in Hout;
           congruence);
      assert (r = req') as -> by congruence; congruence.
  - intros req' Hout Hresp.
    specialize (Hans req' (default "" (ReqData reqData)) Hresp).
    pose proof (BinaryRequest_outcome c method url reqData tr) as Hrun.
    inversion Hrun as [e Hn Heq|r b e Hj Ha Heq|r b Hj Ha Hx Heq|r b o Hj Ha Hx Hy Heq];
      try (unfold binary_outgoing in Hout; rewrite Hn in Hout; congruence);
      assert (r = req') as -> by congruence; congruence.
Qed.

(** X5.  A response whose status is not accepted: the entry points
    return the unexpected-status error with the URL of the dispatched
    request, the status line, the error detail and the payload (the
    encoded request value for [JsonRequest], the request bytes for
    [BinaryRequest]); the descriptor is as it was and nothing is decoded
    or printed, whatever the body and the destination are. *)
Theorem unexpected_status_is_reported c method url reqData tr rawResp :
  StatusCode rawResp ∉ allowed_statuses (ExpectedStatus reqData) →
  (∀ req',
     json_outgoing c method url reqData = Some req' →
     Transport c (round_trips tr) req' = inr rawResp →
     JsonRequest c method url reqData tr
     = (reqData,
        Some (UnexpectedStatus (URL req') (Status rawResp) (errInfo_of rawResp)
                (json_payload reqData)),
        tr ++ [Sent req']))
  ∧ (∀ req',
       binary_outgoing c method url reqData = Some req' →
       Transport c (round_trips tr) req' = inr rawResp →
       BinaryRequest c method url reqData tr
       = (reqData,
          Some (UnexpectedStatus (URL req') (Status rawResp) (errInfo_of rawResp)
                  (default "" (ReqData reqData))),
          tr ++ [Sent req'])).
Proof.
  intros Hstatus. split; intros req' Hout Hresp.
  - pose proof (answer_rejected c tr req' (json_payload reqData) _ _ Hresp Hstatus) as Hans.
    pose proof (JsonRequest_outcome c method url reqData tr) as Hrun.
    inversion Hrun as [e Hb Heq|b e Hb Hn Heq|r b e Hj Ha Heq
                      |r b Hj Ha Hx Heq|r b d d' e Hj Ha Hx Hy Hz Heq];
      try (unfold json_outgoing in Hout; rewrite Hb in Hout; try rewrite Hn in Hout;
           congruence);
      assert (r = req') as -> by congruence; congruence.
  - pose proof (answer_rejected c tr req' (default "" (ReqData reqData)) _ _ Hresp Hstatus)
      as Hans.
    pose proof (BinaryRequest_outcome c method url reqData tr) as Hrun.
    inversion Hrun as [e Hn Heq|r b e Hj Ha Heq|r b Hj Ha Hx Heq|r b o Hj Ha Hx Hy Heq];
      try (unfold binary_outgoing in Hout; rewrite Hn in Hout; congruence);
      assert (r = req') as -> by congruence; congruence.
Qed.

End CallOutcomes.

Lemma construction_failure_is_immediate_witness :
  BinaryRequest (V:=Double.payload) (D:=ErrorWrapper) (mkClient Double.refused "tok")
    "PO ST" "http://h/x" (mkRequestData None None [] None None (Some "data") (Some "stale")) []
  = (mkRequestData None None [] None None (Some "data") (Some "stale"),
     Some (AddContext (LibError "net/http" "invalid method") "failed creating the request"),
     []).
Proof.
  pose proof (construction_failure_is_immediate (V:=Double.payload) (D:=ErrorWrapper)
                (mkClient Double.refused "tok") "PO ST" "http://h/x"
                (mkRequestData None None [] None None (Some "data") (Some "stale")) []
                (LibError "net/http" "invalid method")) as Hfail.
  apply Hfail. reflexivity.
Defined.

Lemma transport_failure_is_reported_witness :
  match
    json_outgoing (mkClient Double.refused "") "GET" "http://h/x"
      (Double.plain Double.payload ErrorWrapper)
  with
  | Some req' =>
    JsonRequest (mkClient Double.refused "") "GET" "http://h/x"
      (Double.plain Double.payload ErrorWrapper) []
    = (Double.plain Double.payload ErrorWrapper,
       Some (AddContext (LibError "net" "connection refused") "failed executing the request"),
       [Sent req'])
  | None => False
  end.
Proof.
  destruct (json_outgoing _ _ _ _) as [req'|] eqn:Hout.
  - apply (proj1 (transport_failure_is_reported (mkClient Double.refused "") "GET"
                    "http://h/x" (Double.plain Double.payload ErrorWrapper) []
                    (LibError "net" "connection refused")) req' Hout eq_refl).
  - vm_compute in Hout. discriminate Hout.
Defined.


(** A body that breaks off after three bytes. *)
Lemma read_failure_is_reported_witness :
  (sendRequest
     (mkClient
        (Double.always
           (mkResponse "200 OK" StatusOK ∅ (mkBody "par" (Some (LibError "net" "unexpected EOF")))))
        "")
     (mkRequest "GET" "http://h/x" ∅ None) None [] "" []).1
  = ("par", Some (AddContext (LibError "net" "unexpected EOF") "failed reading the response body")).
Proof.
  apply (proj1 (read_failure_is_reported (V:=Double.payload) (D:=ErrorWrapper)
                  (mkClient
                     (Double.always
                        (mkResponse "200 OK" StatusOK ∅
                           (mkBody "par" (Some (LibError "net" "unexpected EOF")))))
                     "")
                  "GET" "http://h/x" (Double.plain Double.payload ErrorWrapper) []
                  (mkResponse "200 OK" StatusOK ∅
                     (mkBody "par" (Some (LibError "net" "unexpected EOF"))))
                  (LibError "net" "unexpected EOF")
                  ltac:(apply list_elem_of_singleton; reflexivity) eq_refl)
           (mkRequest "GET" "http://h/x" ∅ None) None "" eq_refl).
Defined.

Lemma unexpected_status_is_reported_witness :
  match
    json_outgoing (mkClient (Double.always Double.too_many) "") "POST" "http://h/x"
      (mkRequestData (D:=ErrorWrapper) None None [] (Some (Double.Flag true))
         (Some zero_ErrorWrapper) None None)
  with
  | Some req' =>
    JsonRequest (mkClient (Double.always Double.too_many) "") "POST" "http://h/x"
      (mkRequestData (D:=ErrorWrapper) None None [] (Some (Double.Flag true))
         (Some zero_ErrorWrapper) None None) []
    = (mkRequestData None None [] (Some (Double.Flag true)) (Some zero_ErrorWrapper) None None,
       Some (UnexpectedStatus (URL req') "429 Too Many Requests" (RawBody "slow down") "true"),
       [Sent req'])
  | None => False
  end.
Proof.
  destruct (json_outgoing _ _ _ _) as [req'|] eqn:Hout.
  - apply (proj1 (unexpected_status_is_reported
                    (mkClient (Double.always Double.too_many) "") "POST" "http://h/x"
                    (mkRequestData (D:=ErrorWrapper) None None [] (Some (Double.Flag true))
                       (Some zero_ErrorWrapper) None None) [] Double.too_many
                    ltac:(intros Hin; apply list_elem_of_singleton in Hin; discriminate Hin))
             req' Hout eq_refl).
  - vm_compute in Hout. discriminate Hout.
Defined.

(** ** More on the dispatched request *)

Lemma Request_eq (r1 r2 : Request) :
  Method r1 = Method r2 → URL r1 = URL r2 → ReqHeader r1 = ReqHeader r2 →
  ReqBody r1 = ReqBody r2 → r1 = r2.
Proof. destruct r1, r2. simpl. by intros -> -> -> ->. Qed.

Lemma add_values_header req header values :
  ReqHeader (add_values req header values) =
  match values with
  | [] => ReqHeader req
  | _ => <[CanonicalMIMEHeaderKey header :=
             Header_Values (ReqHeader req) header ++ values]> (ReqHeader req)
  end.
Proof.
  unfold add_values. revert req.
  induction values as [|v vs IH]; intros req; [done|]. simpl.
  rewrite IH. destruct vs as [|v' vs]; [done|].
  simpl. rewrite Header_Values_Add, bool_decide_eq_true_2 by done.
  unfold Header_Add. rewrite insert_insert_eq. by rewrite <- app_assoc.
Qed.

Lemma Header_Values_insert_ne (h : Header) k key vs :
  k ≠ CanonicalMIMEHeaderKey key →
  Header_Values (<[k := vs]> h) key = Header_Values h key.
Proof. intros Hne. unfold Header_Values. by rewrite lookup_insert_ne. Qed.

(** Values for two different canonical names can be added in either
    order. *)
Lemma add_values_commute req h1 vs1 h2 vs2 :
  CanonicalMIMEHeaderKey h1 ≠ CanonicalMIMEHeaderKey h2 →
  add_values (add_values req h1 vs1) h2 vs2 = add_values (add_values req h2 vs2) h1 vs1.
Proof.
  intros Hne. apply Request_eq.
  - destruct (add_values_line (add_values req h1 vs1) h2 vs2) as (-> & _ & _).
    destruct (add_values_line (add_values req h2 vs2) h1 vs1) as (-> & _ & _).
    destruct (add_values_line req h1 vs1) as (-> & _ & _).
    by destruct (add_values_line req h2 vs2) as (-> & _ & _).
  - destruct (add_values_line (add_values req h1 vs1) h2 vs2) as (_ & -> & _).
    destruct (add_values_line (add_values req h2 vs2) h1 vs1) as (_ & -> & _).
    destruct (add_values_line req h1 vs1) as (_ & -> & _).
    by destruct (add_values_line req h2 vs2) as (_ & -> & _).
  - rewrite !add_values_header.
    destruct vs1 as [|a1 vs1], vs2 as [|a2 vs2]; try done.
    rewrite !Header_Values_insert_ne by done.
    by apply insert_insert_ne.
  - destruct (add_values_line (add_values req h1 vs1) h2 vs2) as (_ & _ & ->).
    destruct (add_values_line (add_values req h2 vs2) h1 vs1) as (_ & _ & ->).
    destruct (add_values_line req h1 vs1) as (_ & _ & ->).
    by destruct (add_values_line req h2 vs2) as (_ & _ & ->).
Qed.

Lemma add_headers_Permutation req hs hs' :
  hs ≡ₚ hs' →
  NoDup ((λ hv, CanonicalMIMEHeaderKey hv.1) <$> hs) →
  add_headers req hs = add_headers req hs'.
Proof.
  intros Hperm. revert req.
  induction Hperm as [|[h vs] l l' Hperm IH|[h1 vs1] [h2 vs2] l|l l' l'' H1 IH1 H2 IH2];
    intros req Hnodup.
  - done.
  - unfold add_headers. simpl. apply IH. by apply NoDup_cons in Hnodup as [_ ?].
  - unfold add_headers. simpl. f_equal. apply add_values_commute.
    simpl in Hnodup. apply NoDup_cons in Hnodup as [Hnotin _].
    intros Heq. apply Hnotin. rewrite Heq. by left.
  - rewrite IH1 by done. apply IH2. by rewrite <- H1.
Qed.

(** X6.  The order in which the loop visits the caller's header map does
    not matter: for two visiting orders of the same entries the values of
    every header of the outgoing request are the same up to their order,
    and when no two entries have the same canonical name the outgoing
    requests are equal. *)
Theorem header_merge_order c req hs hs' :
  hs ≡ₚ hs' →
  (∀ key,
     Header_Values (ReqHeader (outgoing c req (Some hs))) key
     ≡ₚ Header_Values (ReqHeader (outgoing c req (Some hs'))) key)
  ∧ (NoDup ((λ hv, CanonicalMIMEHeaderKey hv.1) <$> hs) →
     outgoing c req (Some hs) = outgoing c req (Some hs')).
Proof.
  intros Hperm. split.
  - intros key. rewrite !outgoing_Values. unfold extra_values.
    apply Permutation_app; [done|]. apply Permutation_app; [|done].
    by apply Permutation_flat_map.
  - intros Hnodup. unfold outgoing. by rewrite (add_headers_Permutation req hs hs').
Qed.

Lemma header_merge_order_witness :
  outgoing (mkClient Double.refused "tok") (mkRequest "GET" "http://h/x" ∅ None)
    (Some [("x-a", ["1"; "2"]); ("X-B", ["3"])])
  = outgoing (mkClient Double.refused "tok") (mkRequest "GET" "http://h/x" ∅ None)
      (Some [("X-B", ["3"]); ("x-a", ["1"; "2"])]).
Proof.
  apply (header_merge_order (mkClient Double.refused "tok")
           (mkRequest "GET" "http://h/x" ∅ None)
           [("x-a", ["1"; "2"]); ("X-B", ["3"])] [("X-B", ["3"]); ("x-a", ["1"; "2"])]).
  - apply perm_swap.
  - vm_compute. apply NoDup_cons. split; [|apply NoDup_singleton].
    intros Hin. apply list_elem_of_singleton in Hin. discriminate Hin.
Defined.

Section Built.
Context `{NetLib} {V D : Type} `{Marshaler V} `{Unmarshaler D}.
Implicit Types (c : Client) (reqData : RequestData V D) (tr : list event).

Lemma outgoing_line c req extraHeaders :
  Method (outgoing c req extraHeaders) = Method req
  ∧ URL (outgoing c req extraHeaders) = URL req
  ∧ ReqBody (outgoing c req extraHeaders) = ReqBody req.
Proof.
  unfold outgoing. case_bool_decide; simpl;
    destruct extraHeaders; simpl; try done; apply add_headers_line.
Qed.

(** X7.  A dispatched request has the method and the URL that
    [http.NewRequest] made of the caller's method and of the caller's URL
    with the encoded query appended (when [Params] is not nil); its body
    is the JSON encoding of [ReqValue] for [JsonRequest] and the bytes of
    [ReqData] for [BinaryRequest], and there is no body when these are
    nil. *)
Theorem dispatched_request_is_as_built c method url reqData tr req' :
  (req' ∈ dispatched (JsonRequest c method url reqData) tr →
     request_line method (with_params url (Params reqData)) = inr (Method req', URL req')
     ∧ json_body reqData = inr (ReqBody req'))
  ∧ (req' ∈ dispatched (BinaryRequest c method url reqData) tr →
     request_line method (with_params url (Params reqData)) = inr (Method req', URL req')
     ∧ ReqBody req' = ReqData reqData).
Proof.
  split; intros Hin.
  - rewrite JsonRequest_dispatched in Hin. unfold json_outgoing in Hin.
    destruct (json_body reqData) as [|body]; [by apply elem_of_nil in Hin|].
    unfold http_NewRequest in Hin.
    destruct (request_line _ _) as [|[m u]]; [by apply elem_of_nil in Hin|].
    simpl in Hin. apply list_elem_of_singleton in Hin as ->.
    by destruct (outgoing_line c
                   (add_header (add_header (mkRequest m u ∅ body) "Content-Type"
                                  "application/json") "Accept" "application/json")
                   (ReqHeaders reqData)) as (-> & -> & ->).
  - rewrite BinaryRequest_dispatched in Hin. unfold binary_outgoing, http_NewRequest in Hin.
    destruct (request_line _ _) as [|[m u]]; [by apply elem_of_nil in Hin|].
    simpl in Hin. apply list_elem_of_singleton in Hin as ->.
    by destruct (outgoing_line c
                   (add_header (add_header (mkRequest m u ∅ (ReqData reqData)) "Content-Type"
                                  "application/octet-stream") "Accept"
                      "application/octet-stream")
                   (ReqHeaders reqData)) as (-> & -> & ->).
Qed.



End Built.

(** X9.  Only the set of expected statuses matters: two lists with the
    same members give the same outcome, so order and repetition are
    irrelevant, and an empty list behaves exactly as the list that holds
    200 alone. *)
Theorem expected_status_is_a_set c req extraHeaders payloadInfo tr l l' :
  (∀ code, code ∈ allowed_statuses l ↔ code ∈ allowed_statuses l') →
  sendRequest c req extraHeaders l payloadInfo tr
  = sendRequest c req extraHeaders l' payloadInfo tr.
Proof.
  intros Hsame. rewrite !sendRequest_run. f_equal. unfold answer.
  destruct (Transport c (round_trips tr) (outgoing c req extraHeaders)) as [|rawResp];
    [done|].
  unfold resolve.
  assert (foundStatus (StatusCode rawResp) (allowed_statuses l)
          = foundStatus (StatusCode rawResp) (allowed_statuses l')) as ->; [|done].
  apply eq_true_iff_eq. rewrite !foundStatus_elem_of. apply Hsame.
Qed.

Lemma expected_status_is_a_set_witness :
  sendRequest (mkClient (Double.always (Double.ok "text/plain" "hi")) "")
    (mkRequest "GET" "http://h/x" ∅ None) None [] "" []
  = sendRequest (mkClient (Double.always (Double.ok "text/plain" "hi")) "")
      (mkRequest "GET" "http://h/x" ∅ None) None [StatusOK; StatusOK] "" [].
Proof.
  apply expected_status_is_a_set. intros code. simpl.
  rewrite !elem_of_cons. tauto.
Defined.

Lemma dispatched_request_is_as_built_witness :
  match
    json_outgoing (mkClient Double.refused "") "" "http://h/x"
      (mkRequestData (D:=ErrorWrapper) None (Some [("limit", ["5"])]) []
         (Some (Double.Flag true)) None None None)
  with
  | Some req' =>
    Method req' = "GET" ∧ URL req' = "http://h/x?limit=5" ∧ ReqBody req' = Some "true"
  | None => False
  end.
Proof.
  destruct (json_outgoing _ _ _ _) as [req'|] eqn:Hout.
  - destruct (proj1 (dispatched_request_is_as_built (mkClient Double.refused "") ""
                       "http://h/x"
                       (mkRequestData (D:=ErrorWrapper) None (Some [("limit", ["5"])]) []
                          (Some (Double.Flag true)) None None None) [] req'))
      as [Hline Hbody].
    { rewrite JsonRequest_dispatched, Hout. apply list_elem_of_singleton. reflexivity. }
    match type of Hline with
    | ?lhs = _ => assert (lhs = inr ("GET", "http://h/x?limit=5")) as Hcomp by reflexivity
    end.
    rewrite Hcomp in Hline. injection Hline as <- <-.
    match type of Hbody with
    | ?lhs = _ => assert (lhs = inr (Some "true")) as Hcomp' by reflexivity
    end.
    rewrite Hcomp' in Hbody. injection Hbody as <-. repeat split.
  - vm_compute in Hout. discriminate Hout.
Defined.

(** ** The text of an error *)

(** [simpl] leaves [String.append] alone; this unfolds it on strings
    that start with known bytes. *)
Ltac string_simpl :=
  cbv beta iota delta [String.append] in *; fold String.append in *; simpl in *.

Lemma string_forallb_app p s t :
  string_forallb p (s +:+ t) = string_forallb p s && string_forallb p t.
Proof. induction s as [|c s IH]; string_simpl; [done|]. by rewrite IH, andb_assoc. Qed.

Lemma string_app_assoc (s t u : string) : (s +:+ t) +:+ u = s +:+ (t +:+ u).
Proof. induction s as [|c s IH]; string_simpl; [done|]. by rewrite IH. Qed.

Lemma string_of_uint_digits d : string_forallb is_digit (NilEmpty.string_of_uint d) = true.
Proof. induction d; simpl; auto. Qed.

Lemma fmt_d_chars n : string_forallb sign_or_digit (fmt_d n) = true.
Proof.
  assert (∀ d, string_forallb sign_or_digit (NilEmpty.string_of_uint d) = true) as Hd.
  { induction d; simpl; auto. }
  unfold fmt_d. destruct (Z.to_int n); simpl; auto.
Qed.

Lemma fmt_d_nonneg_digits n : string_forallb is_digit (fmt_d (Z.of_N n)) = true.
Proof.
  unfold fmt_d. destruct n as [|p]; simpl; [done|]. apply string_of_uint_digits.
Qed.

Lemma fmt_d_inj a b : fmt_d a = fmt_d b → a = b.
Proof.
  unfold fmt_d. intros Heq.
  assert (Some (Z.to_int a) = Some (Z.to_int b)) as [= Hint].
  { by rewrite <- !NilEmpty.isi, Heq. }
  by rewrite <- (DecimalZ.of_to a), <- (DecimalZ.of_to b), Hint.
Qed.

(** Two texts that agree and start with space-free words followed by a
    space start with the same word. *)
Lemma first_word_eq s1 s2 r1 r2 :
  string_forallb sign_or_digit s1 = true →
  string_forallb sign_or_digit s2 = true →
  s1 +:+ String " " r1 = s2 +:+ String " " r2 →
  s1 = s2 ∧ r1 = r2.
Proof.
  revert s2. induction s1 as [|c1 s1 IH]; intros [|c2 s2] H1 H2 Heq; string_simpl.
  - by injection Heq as ->.
  - injection Heq as <- _. done.
  - injection Heq as -> _. done.
  - injection Heq as -> Heq.
    apply andb_prop in H1 as [_ H1]. apply andb_prop in H2 as [_ H2].
    by destruct (IH s2 H1 H2 Heq) as [-> ->].
Qed.

Lemma no_space_in_word s r t :
  string_forallb sign_or_digit s = true → s ≠ t +:+ String " " r.
Proof.
  revert t. induction s as [|c s IH]; intros [|c' t] Hs Heq; string_simpl; try done.
  - injection Heq as -> _. done.
  - injection Heq as _ Heq. apply andb_prop in Hs as [_ Hs]. by eapply IH.
Qed.

Lemma fmt_d_nonempty n : fmt_d n ≠ "".
Proof.
  intros Heq. pose proof (fmt_d_inj n 0) as Hinj.
  assert (NilEmpty.int_of_string (fmt_d n) = Some (Z.to_int n)) as Hint
    by apply NilEmpty.isi.
  rewrite Heq in Hint. simpl in Hint. injection Hint as Hint.
  pose proof (DecimalZ.of_to n) as Hof. rewrite <- Hint in Hof. simpl in Hof. subst n.
  discriminate Heq.
Qed.

Lemma byte_val_inj c1 c2 : byte_val c1 = byte_val c2 → c1 = c2.
Proof.
  unfold byte_val. intros Heq.
  by rewrite <- (ascii_N_embedding c1), <- (ascii_N_embedding c2), Heq.
Qed.

Lemma fmt_v_elems_cons c r :
  fmt_v_elems (String c r) =
  match r with
  | EmptyString => fmt_d (Z.of_N (byte_val c))
  | _ => fmt_d (Z.of_N (byte_val c)) +:+ String " " (fmt_v_elems r)
  end.
Proof. by destruct r. Qed.

Lemma fmt_v_elems_nonempty c r : fmt_v_elems (String c r) ≠ "".
Proof.
  rewrite fmt_v_elems_cons. pose proof (fmt_d_nonempty (Z.of_N (byte_val c))) as Hne.
  destruct r; [done|]. destruct (fmt_d (Z.of_N (byte_val c))); [done|]. by string_simpl.
Qed.

Lemma fmt_v_elems_inj b1 b2 : fmt_v_elems b1 = fmt_v_elems b2 → b1 = b2.
Proof.
  revert b2. induction b1 as [|c1 r1 IH]; intros [|c2 r2].
  - done.
  - intros Heq. symmetry in Heq. by apply fmt_v_elems_nonempty in Heq.
  - intros Heq. by apply fmt_v_elems_nonempty in Heq.
  - rewrite !fmt_v_elems_cons. intros Heq.
    pose proof (fmt_d_chars (Z.of_N (byte_val c1))) as H1.
    pose proof (fmt_d_chars (Z.of_N (byte_val c2))) as H2.
    destruct r1 as [|a1 r1], r2 as [|a2 r2].
    + apply fmt_d_inj, N2Z.inj, byte_val_inj in Heq. by subst.
    + by apply no_space_in_word in Heq.
    + symmetry in Heq. by apply no_space_in_word in Heq.
    + apply first_word_eq in Heq as [Hd Hr]; [|done..].
      apply fmt_d_inj, N2Z.inj, byte_val_inj in Hd. apply IH in Hr. congruence.
Qed.

Lemma fmt_v_elems_chars b : string_forallb numeral_char (fmt_v_elems b) = true.
Proof.
  assert (∀ s, string_forallb is_digit s = true → string_forallb numeral_char s = true)
    as Hweak.
  { induction s as [|c s IH]; simpl; [done|]. intros [Hc Hs]%andb_prop.
    unfold numeral_char. rewrite Hc. simpl. auto. }
  induction b as [|c r IH]; [done|]. rewrite fmt_v_elems_cons.
  destruct r; [apply Hweak, fmt_d_nonneg_digits|].
  rewrite string_forallb_app, Hweak by apply fmt_d_nonneg_digits.
  simpl string_forallb at 1. exact IH.
Qed.

Lemma string_app_inv_tail (s t u : string) : s +:+ u = t +:+ u → s = t.
Proof.
  intros Heq.
  assert (∀ a b : string, String.length (a +:+ b) = (String.length a + String.length b)%nat)
    as Hlen.
  { induction a as [|c a IH]; intros b; string_simpl; [done|]. by rewrite IH. }
  assert (String.length s = String.length t) as Hst.
  { pose proof (f_equal String.length Heq) as Hl. rewrite !Hlen in Hl. lia. }
  clear Hlen. revert t Heq Hst.
  induction s as [|c s IH]; intros [|c' t] Heq Hst; string_simpl; try done.
  injection Heq as -> Heq. f_equal. apply IH; [done|]. by injection Hst.
Qed.

(** X10.  In the text of an unexpected-status error a raw body appears
    as the decimal values of its bytes: the detail is made of digits,
    spaces and the two brackets only, whatever bytes the server sent, and
    two different bodies give two different details. *)
Theorem raw_detail_is_numerals b :
  string_forallb numeral_char (fmt_v (RawBody b)) = true
  ∧ (∀ b', fmt_v (RawBody b) = fmt_v (RawBody b') → b = b')
  ∧ ∀ url status payloadInfo,
      unexpected_status_text url status (RawBody b) payloadInfo
      = "request (" +:+ url +:+ ") returned unexpected status: " +:+ status
        +:+ "; error info: [" +:+ fmt_v_elems b +:+ "]; request body: " +:+ payloadInfo.
Proof.
  split; [|split].
  - unfold fmt_v, fmt_v_bytes. string_simpl.
    by rewrite string_forallb_app, fmt_v_elems_chars.
  - intros b'. unfold fmt_v, fmt_v_bytes. intros Heq. string_simpl.
    injection Heq as Heq. by apply string_app_inv_tail, fmt_v_elems_inj in Heq.
  - intros url status payloadInfo. unfold unexpected_status_text, fmt_v, fmt_v_bytes.
    rewrite !string_app_assoc. by string_simpl.
Qed.

(** X11.  The text of [ErrorResponse.Error] determines the code: two
    errors with the same text have the same code, and the same text after
    the code. *)
Theorem error_text_determines_code e1 e2 :
  ErrorResponse_Error e1 = ErrorResponse_Error e2 →
  Code e1 = Code e2
  ∧ Title e1 +:+ ": " +:+ Message e1 = Title e2 +:+ ": " +:+ Message e2.
Proof.
  unfold ErrorResponse_Error. intros Heq.
  apply (inj (String.append "Failed: ")) in Heq. string_simpl.
  apply first_word_eq in Heq as [Hcode Hrest]; [|apply fmt_d_chars..].
  by apply fmt_d_inj in Hcode.
Qed.

(** Two different errors with one text: a colon and a space inside the
    title read like the separator, the code is the same. *)
Lemma error_text_determines_code_witness :
  Code (mkErrorResponse "b: c" 413 "a") = Code (mkErrorResponse "c" 413 "a: b")
  ∧ mkErrorResponse "b: c" 413 "a" ≠ mkErrorResponse "c" 413 "a: b".
Proof.
  split; [|discriminate].
  apply (error_text_determines_code (mkErrorResponse "b: c" 413 "a")
           (mkErrorResponse "c" 413 "a: b")).
  reflexivity.
Defined.

Lemma raw_detail_is_numerals_witness :
  unexpected_status_text "http://h/x" "500 Internal Server Error" (RawBody "boom") ""
  = "request (http://h/x) returned unexpected status: 500 Internal Server Error; error info: [98 111 111 109]; request body: ".
Proof.
  rewrite (proj2 (proj2 (raw_detail_is_numerals "boom"))). reflexivity.
Defined.

(** * Properties of the service packages *)

Section ServiceFacts.
Context {W : Type} `{ServiceClient W}.

(** X12.  [HeadObject] never returns headers: its first result is nil
    for every client, whatever the server answers; only the error tells
    the caller anything. *)
Theorem HeadObject_returns_no_headers containerName objectName w :
  (swift.HeadObject containerName objectName w).1.1 = None.
Proof.
  unfold swift.HeadObject, swift.touchObject.
  by destruct (SendRequest _ _ _ _ w) as [[rd err] w'].
Qed.

(** X13.  [SignedURL] does not depend on the expiry time, and returns
    what [URL] returns whenever [URL] succeeds: the URL is not signed. *)
Theorem SignedURL_is_the_public_URL {T : Type} containerName file (expires expires' : T) w :
  swift.SignedURL containerName file expires w = swift.SignedURL containerName file expires' w
  ∧ ((swift.URL containerName file w).1.2 = None →
     swift.SignedURL containerName file expires w = swift.URL containerName file w).
Proof.
  split; [done|]. unfold swift.SignedURL.
  destruct (swift.URL containerName file w) as [[rawURL err] w']. simpl. by intros ->.
Qed.



End ServiceFacts.

Lemma SignedURL_is_the_public_URL_witness :
  swift.SignedURL (H:=ServiceDouble.serving) "box" "a.txt" 1700000000 tt
  = ("http://store/box/a.txt", None, tt).
Proof.
  rewrite (proj2 (SignedURL_is_the_public_URL (H:=ServiceDouble.serving)
                    "box" "a.txt" 1700000000 0 tt) eq_refl).
  reflexivity.
Defined.


(** * Standard output *)

Section Prints.
Context `{NetLib} {V D : Type} `{Marshaler V} `{Unmarshaler D}.
Implicit Types (c : Client) (reqData : RequestData V D) (tr : list event).

(** X15.  [BinaryRequest] never prints.  [JsonRequest] prints only when
    it decodes: at most one line per call, after the round trip, and only
    when [RespValue] is not nil; what it prints is the decoded body of a
    response it is about to decode into the destination. *)
Theorem prints_only_when_decoding c method url reqData tr :
  (∀ e, e ∈ new_events (BinaryRequest c method url reqData) tr → is_sent e = true)
  ∧ (length (filter (λ e, is_sent e = false)
               (new_events (JsonRequest c method url reqData) tr)) ≤ 1)%nat
  ∧ (∀ v, Printed v ∈ new_events (JsonRequest c method url reqData) tr →
          is_Some (RespValue reqData)
          ∧ ∃ req' respBody,
              new_events (JsonRequest c method url reqData) tr = [Sent req'; Printed v]
              ∧ respBody ≠ "" ∧ v = json.parse respBody
              ∧ answer c tr req' (json_payload reqData) (ExpectedStatus reqData)
                = (respBody, None)).
Proof.
  split; [|split].
  - intros e. unfold new_events.
    pose proof (BinaryRequest_outcome c method url reqData tr) as Hrun.
    inversion Hrun as [err Hn Heq|r b err Hj Ha Heq|r b Hj Ha Hx Heq|r b o Hj Ha Hx Hy Heq];
      simpl; rewrite ?drop_app_length, ?drop_all; intros Hin;
      try (by apply elem_of_nil in Hin);
      by apply list_elem_of_singleton in Hin as ->.
  - unfold new_events.
    pose proof (JsonRequest_outcome c method url reqData tr) as Hrun.
    inversion Hrun as [err Hb Heq|b err Hb Hn Heq|r b err Hj Ha Heq
                      |r b Hj Ha Hx Heq|r b d d' err Hj Ha Hx Hy Hz Heq];
      simpl; rewrite ?drop_app_length, ?drop_all; simpl; lia.
  - intros v. unfold new_events.
    pose proof (JsonRequest_outcome c method url reqData tr) as Hrun.
    inversion Hrun as [err Hb Heq|b err Hb Hn Heq|r b err Hj Ha Heq
                      |r b Hj Ha Hx Heq|r b d d' err Hj Ha Hx Hy Hz Heq];
      simpl; rewrite ?drop_app_length, ?drop_all; intros Hin;
      try (by apply elem_of_nil in Hin);
      try (by apply list_elem_of_singleton in Hin).
    apply elem_of_cons in Hin as [Hin|Hin]; [done|].
    apply list_elem_of_singleton in Hin as [= ->].
    split; [by eexists|]. by exists r, b.
Qed.

End Prints.
